(** * The record vault of [app.js]: a shallow embedding and its properties

    [app.js] is a menu-driven vault program: eight menu actions work on
    one MongoDB collection of records (through Mongoose), on a directory
    of JSON backups and on one text export.

    The embedding keeps the shape of the source.
    - The collection is a list of documents in the order a collection scan
      returns them, which is insertion order.
    - The directory that holds [app.js] is a finite map from relative
      paths to file contents.
    - Every operation sent to the store is appended to a log, so that
      "no store query is attempted" is a statement about the log.
    - An action is a computation [M unit]: it reads the vault, prints
      lines with [console.log], may throw, and returns the new vault.
    - The answers typed at the prompts, the readings of the clock and the
      identifier that the driver generates for a new document are
      arguments of the actions.

    What the libraries decide is fixed as follows.  The program is the only
    writer of the store and of the files, and a store call and a file
    write succeed.  A [.sort()] of a query, on a date or on the name, keeps
    the scan order among documents with equal keys.  [record.save()]
    writes, and moves [updatedAt], only when an assignment changed the
    document; otherwise it only asks the store whether the document is
    there.  The identifier format, the locale's date format, the regular
    expressions beyond literal characters and the dot, and the order that
    the [$sort] stage of the aggregation gives to names of equal length
    are parameters ([Platform]): two records seldom share a date or a
    name, but names of equal length are common, and nothing in the program
    settles their order.

    Strings are Rocq strings: one character is one code point, and the
    alphabet is the 8-bit range (ASCII and Latin-1). *)

From Stdlib Require Import ZArith Ascii String List Lia Bool Sorting.Sorted Permutation.
From stdpp Require Import gmap strings list pretty.

#[local] Open Scope Z_scope.
#[local] Open Scope nat_scope.

(** ** JavaScript string primitives used by the source *)

Module JsString.

Definition code (c : ascii) : nat := nat_of_ascii c.

(** [String.prototype.trim] strips WhiteSpace and LineTerminator code
    points; in the 8-bit range these are TAB, LF, VT, FF, CR, SPACE and
    NO-BREAK SPACE. *)
Definition isWhiteSpace (c : ascii) : bool :=
  let n := code c in
  ((9 <=? n) && (n <=? 13)) || (n =? 32) || (n =? 160).

Fixpoint trimStart (s : string) : string :=
  match s with
  | EmptyString => EmptyString
  | String c s' => if isWhiteSpace c then trimStart s' else s
  end.

Definition isEmpty (s : string) : bool :=
  match s with EmptyString => true | String _ _ => false end.

Fixpoint trimEnd (s : string) : string :=
  match s with
  | EmptyString => EmptyString
  | String c s' =>
      let r := trimEnd s' in
      if isWhiteSpace c && isEmpty r then EmptyString else String c r
  end.

Definition trim (s : string) : string := trimEnd (trimStart s).

(** [String.prototype.toLowerCase] on the 8-bit range: A-Z and the
    Latin-1 capitals U+00C0-U+00DE (U+00D7 is the multiplication sign)
    move 32 code points up. *)
Definition lowerChar (c : ascii) : ascii :=
  let n := code c in
  if ((65 <=? n) && (n <=? 90))
     || ((192 <=? n) && (n <=? 222) && negb (n =? 215))
  then ascii_of_nat (n + 32) else c.

Fixpoint toLowerCase (s : string) : string :=
  match s with
  | EmptyString => EmptyString
  | String c s' => String (lowerChar c) (toLowerCase s')
  end.

(** A string in a condition ([if (name)], [a || b]) is truthy iff it is
    not empty. *)
Definition truthy (s : string) : bool := negb (isEmpty s).

(** [a || b] on strings. *)
Definition orElse (a b : string) : string := if truthy a then a else b.

(** [s.replace(/[:T]/g, '-')] *)
Fixpoint replaceColonT (s : string) : string :=
  match s with
  | EmptyString => EmptyString
  | String c s' =>
      String (if (code c =? 58) || (code c =? 84) then "-"%char else c)
             (replaceColonT s')
  end.

(** [s.split('.')[0]]: the text before the first full stop. *)
Fixpoint beforeDot (s : string) : string :=
  match s with
  | EmptyString => EmptyString
  | String c s' => if code c =? 46 then EmptyString else String c (beforeDot s')
  end.

Definition quote : string := String (ascii_of_nat 34) EmptyString.

(** [lines.join('\n')] *)
Definition nl : string := String (ascii_of_nat 10) EmptyString.

Fixpoint join (sep : string) (l : list string) : string :=
  match l with
  | [] => EmptyString
  | [x] => x
  | x :: rest => x +:+ sep +:+ join sep rest
  end.

End JsString.

(** ** [Date.prototype.toISOString] *)

Module JsDate.

#[local] Open Scope Z_scope.

(** A date is its time value: milliseconds since the epoch, UTC. *)
Definition Date := Z.

Definition msPerDay : Z := 86400000.

(** Proleptic Gregorian date of a day number (days since 1970-01-01). *)
Definition civil (days : Z) : Z * Z * Z :=
  let z := days + 719468 in
  let era := z / 146097 in
  let doe := z - era * 146097 in
  let yoe := (doe - doe / 1460 + doe / 36524 - doe / 146096) / 365 in
  let doy := doe - (365 * yoe + yoe / 4 - yoe / 100) in
  let mp := (5 * doy + 2) / 153 in
  let d := doy - (153 * mp + 2) / 5 + 1 in
  let m := if mp <? 10 then mp + 3 else mp - 9 in
  let y := yoe + era * 400 + (if m <=? 2 then 1 else 0) in
  (y, m, d).

(** [n] written with at least [width] decimal digits ([n] >= 0). *)
Fixpoint pad (width : nat) (n : Z) : string :=
  match width with
  | O => EmptyString
  | S O => pretty n
  | S w => if n <? 10 ^ Z.of_nat w then "0" +:+ pad w n else pretty n
  end.

Definition isoYear (y : Z) : string :=
  if (0 <=? y) && (y <=? 9999) then pad 4 y
  else if y <? 0 then "-" +:+ pad 6 (- y) else "+" +:+ pad 6 y.

(** YYYY-MM-DDTHH:mm:ss.sssZ *)
Definition toISOString (t : Date) : string :=
  let days := t / msPerDay in
  let ms := t mod msPerDay in
  let '(y, m, d) := civil days in
  isoYear y +:+ "-" +:+ pad 2 m +:+ "-" +:+ pad 2 d +:+ "T"
    +:+ pad 2 (ms / 3600000) +:+ ":" +:+ pad 2 (ms / 60000 mod 60) +:+ ":"
    +:+ pad 2 (ms / 1000 mod 60) +:+ "." +:+ pad 3 (ms mod 1000) +:+ "Z".

End JsDate.

(** ** The data model *)

(** An ObjectId, written as the text [`${record._id}`] prints. *)
Definition ObjectId := string.

(** A document of the [Record] model ([recordSchema] with
    [timestamps: true]).  An absent [details] and an empty one print alike
    ([record.details || 'N/A']) and are both the empty string here. *)
Record RecordDoc := {
  _id : ObjectId;
  name : string;
  details : string;
  createdAt : JsDate.Date;
  updatedAt : JsDate.Date
}.

(** What [fs.promises.writeFile] stored.  A backup is the text
    [JSON.stringify(records, null, 2)]; it is kept as the array of
    documents that the text prints, in the order it prints them. *)
Inductive FileContent :=
| Utf8Text (text : string)
| JsonArray (records : list RecordDoc).

Inductive SortField := SortName | SortCreatedAt | SortUpdatedAt.
Inductive SortOrder := Ascending | Descending.

(** A document after [$project: { name: 1, createdAt: 1, length: {
    $strLenCP: '$name' } }]. *)
Record Projected := {
  p_id : ObjectId;
  p_name : string;
  p_createdAt : JsDate.Date;
  p_length : nat
}.

(** The operations that the program sends to the store.  [ExistsById] is the
    query by [_id] with which [save()] makes sure of a document that it
    has no change to write for. *)
Inductive StoreCall :=
| InsertOne (oid : ObjectId)
| FindById (oid : ObjectId)
| UpdateOne (oid : ObjectId)
| ExistsById (oid : ObjectId)
| FindByIdAndDelete (oid : ObjectId)
| FindSorted (regex : option string) (field : SortField) (order : SortOrder)
| FindOneSorted (field : SortField) (order : SortOrder)
| CountDocuments
| Aggregate.

(** The persistent state: the collection in scan order, the files below
    [__dirname], and the store operations sent so far. *)
Record Vault := {
  collection : list RecordDoc;
  files : gmap string FileContent;
  storeLog : list StoreCall
}.

Definition emptyVault : Vault :=
  {| collection := []; files := ∅; storeLog := [] |}.

(** What the libraries decide and the source does not: the strings
    Mongoose casts to an ObjectId ([mongoose.isValidObjectId] holds exactly
    for those), the locale's date format, the server's regular
    expression engine on patterns that use more than literal characters
    and the dot (an error message, or the predicate the pattern denotes),
    and the order in which the [$sort] stage of an aggregation delivers two
    documents whose sort keys are equal ([tieKeepsScanOrder a b]: [a],
    which the collection scan met before [b], is delivered before [b]). *)
Record Platform := {
  castObjectId : string -> option ObjectId;
  toLocaleString : JsDate.Date -> string;
  regexBeyond : string -> string + (string -> bool);
  tieKeepsScanOrder : Projected -> Projected -> bool
}.

(** ** Computations: state, printed lines, exceptions *)

Inductive Completion (A : Type) :=
| Normal (a : A)
| Throw (message : string).
Arguments Normal {A} a.
Arguments Throw {A} message.

Definition M (A : Type) : Type := Vault -> Completion A * list string * Vault.

Definition ret {A} (a : A) : M A := fun v => (Normal a, [], v).

Definition bind {A B} (m : M A) (k : A -> M B) : M B :=
  fun v =>
    match m v with
    | (Normal a, out, v') =>
        let next := k a v' in (fst (fst next), out ++ snd (fst next), snd next)
    | (Throw msg, out, v') => (Throw msg, out, v')
    end.

Notation "x <- m ;; k" := (bind m (fun x => k))
  (at level 100, m at next level, right associativity).
Notation "m ;;; k" := (bind m (fun _ => k))
  (at level 100, right associativity).

Definition throw {A} (msg : string) : M A := fun v => (Throw msg, [], v).

(** [console.log(line)] *)
Definition console_log (line : string) : M unit := fun v => (Normal tt, [line], v).

Definition console_logs (lines : list string) : M unit := fun v => (Normal tt, lines, v).

Definition sendToStore (c : StoreCall) : M unit :=
  fun v => (Normal tt, [],
            {| collection := collection v; files := files v;
               storeLog := storeLog v ++ [c] |}).

Definition getCollection : M (list RecordDoc) := fun v => (Normal (collection v), [], v).

Definition setCollection (l : list RecordDoc) : M unit :=
  fun v => (Normal tt, [],
            {| collection := l; files := files v; storeLog := storeLog v |}).

(** [fs.promises.writeFile(path, content, 'utf8')]: creates the file or
    replaces its content.  The directory exists ([ensureBackupsDir] runs
    before the menu loop). *)
Definition writeFile (path : string) (content : FileContent) : M unit :=
  fun v => (Normal tt, [],
            {| collection := collection v; files := <[path := content]> (files v);
               storeLog := storeLog v |}).

(** ** Sorting as the store does it *)

(** [.sort({field: order})]: documents come out ordered by the key.  The
    program names one key only; among documents with equal keys the
    sorter keeps the order in which the collection scan delivers them, and
    so does this insertion sort. *)
Section Sorting.
Context {A : Type} (le : A -> A -> bool).

Fixpoint insertSorted (x : A) (l : list A) : list A :=
  match l with
  | [] => [x]
  | y :: l' => if le x y then x :: y :: l' else y :: insertSorted x l'
  end.

Definition sortBy (l : list A) : list A := foldr insertSorted [] l.

(** [$sort] in an aggregation: documents come out ordered by the key, and
    two documents with equal keys in the order the server decides
    ([keeps x y]: [x], met first by the scan, comes out before [y]). *)
Context (keeps : A -> A -> bool).

Fixpoint insertTied (x : A) (l : list A) : list A :=
  match l with
  | [] => [x]
  | y :: l' =>
      if le x y && (negb (le y x) || keeps x y) then x :: y :: l'
      else y :: insertTied x l'
  end.

Definition sortStage (l : list A) : list A := foldr insertTied [] l.
End Sorting.
Arguments sortBy {A} le l : simpl never.
Arguments sortStage {A} le keeps l : simpl never.

Definition leField (field : SortField) (a b : RecordDoc) : bool :=
  match field with
  | SortName => String.leb (name a) (name b)
  | SortCreatedAt => (createdAt a <=? createdAt b)%Z
  | SortUpdatedAt => (updatedAt a <=? updatedAt b)%Z
  end.

Definition leSpec (field : SortField) (order : SortOrder) (a b : RecordDoc) : bool :=
  match order with
  | Ascending => leField field a b
  | Descending => leField field b a
  end.

(** ** The fragment of the regular expression language that is interpreted *)

Module Regex.
Import JsString.

Inductive Atom := Lit (c : ascii) | Dot.

(** The characters with a meaning of their own in a pattern. *)
Definition metaChars : string := "\^$.|?*+()[]{}".

Fixpoint occurs (c : ascii) (s : string) : bool :=
  match s with
  | EmptyString => false
  | String d s' => Ascii.eqb c d || occurs c s'
  end.

Definition isMeta (c : ascii) : bool := occurs c metaChars.

(** A pattern of literal characters and dots; [None] for any other
    pattern. *)
Fixpoint compile (pattern : string) : option (list Atom) :=
  match pattern with
  | EmptyString => Some []
  | String c rest =>
      match compile rest with
      | None => None
      | Some atoms =>
          if Ascii.eqb c "."%char then Some (Dot :: atoms)
          else if isMeta c then None
          else Some (Lit c :: atoms)
      end
  end.

(** One atom against one character, with [$options: 'i']: a literal
    matches its own letter in either case, the dot matches every
    character but the line feed. *)
Definition matchAtom (a : Atom) (d : ascii) : bool :=
  match a with
  | Lit c => Ascii.eqb (lowerChar c) (lowerChar d)
  | Dot => negb (code d =? 10)
  end.

Fixpoint matchHere (atoms : list Atom) (s : string) : bool :=
  match atoms, s with
  | [], _ => true
  | _ :: _, EmptyString => false
  | a :: atoms', String d s' => matchAtom a d && matchHere atoms' s'
  end.

(** An unanchored pattern matches when it matches at some position. *)
Fixpoint search (atoms : list Atom) (s : string) : bool :=
  matchHere atoms s ||
  match s with
  | EmptyString => false
  | String _ s' => search atoms s'
  end.
End Regex.

(** ** The program *)

Section Program.
Context (P : Platform).
Import JsString JsDate.

Definition EXPORT_FILE_PATH : string := "export.txt".
Definition BACKUPS_DIR : string := "backups".

(** [path.join(dir, file)], paths being relative to [__dirname]. *)
Definition pathJoin (dir file : string) : string := dir +:+ "/" +:+ file.

(** [path.basename(p)]: the text after the last slash. *)
Fixpoint basename (p : string) : string :=
  match p with
  | EmptyString => EmptyString
  | String c rest =>
      if Regex.occurs "/"%char rest then basename rest
      else if Ascii.eqb c "/"%char then rest else p
  end.

Definition isValidObjectId (id : string) : bool :=
  match castObjectId P id with Some _ => true | None => false end.

(** *** The [Record] model *)

Definition hasId (oid : ObjectId) (d : RecordDoc) : bool := String.eqb (_id d) oid.

Fixpoint removeFirst (oid : ObjectId) (l : list RecordDoc) : list RecordDoc :=
  match l with
  | [] => []
  | d :: l' => if hasId oid d then l' else d :: removeFirst oid l'
  end.

Fixpoint replaceFirst (oid : ObjectId) (new : RecordDoc) (l : list RecordDoc)
  : list RecordDoc :=
  match l with
  | [] => []
  | d :: l' => if hasId oid d then new :: l' else d :: replaceFirst oid new l'
  end.

Definition castError (id : string) : string :=
  "Cast to ObjectId failed for value " +:+ quote +:+ id +:+ quote
    +:+ " (type string) at path " +:+ quote +:+ "_id" +:+ quote
    +:+ " for model " +:+ quote +:+ "Record" +:+ quote.

(** [Record.create({ name, details })]: the schema trims both strings and
    requires a name; [timestamps: true] sets both dates to the clock
    reading; the new document goes to the end of the collection. *)
Definition Record_create (name0 details0 : string) (oid : ObjectId) (now : Date)
  : M RecordDoc :=
  let doc := {| _id := oid; name := trim name0; details := trim details0;
                createdAt := now; updatedAt := now |} in
  if truthy (name doc) then
    sendToStore (InsertOne oid) ;;;
    l <- getCollection ;;
    setCollection (l ++ [doc]) ;;;
    ret doc
  else throw "Record validation failed: name: Path `name` is required.".

(** [Record.findById(id)] *)
Definition Record_findById (id : string) : M (option RecordDoc) :=
  match castObjectId P id with
  | None => throw (castError id)
  | Some oid =>
      sendToStore (FindById oid) ;;;
      l <- getCollection ;;
      ret (List.find (hasId oid) l)
  end.

(** [record.save()] on a document loaded as [loaded] and now holding
    [current]: when a path was changed, [updatedAt] becomes the clock
    reading and the document is written back; when nothing was changed,
    the store is only asked whether the document is there (it is: the
    program has just loaded it and is the only writer). *)
Definition Document_save (loaded current : RecordDoc) (now : Date) : M RecordDoc :=
  if String.eqb (name current) (name loaded)
     && String.eqb (details current) (details loaded)
  then
    sendToStore (ExistsById (_id loaded)) ;;;
    ret current
  else
    let saved := {| _id := _id current; name := name current;
                    details := details current; createdAt := createdAt current;
                    updatedAt := now |} in
    sendToStore (UpdateOne (_id loaded)) ;;;
    l <- getCollection ;;
    setCollection (replaceFirst (_id loaded) saved l) ;;;
    ret saved.

(** [Record.findByIdAndDelete(id)] *)
Definition Record_findByIdAndDelete (id : string) : M (option RecordDoc) :=
  match castObjectId P id with
  | None => throw (castError id)
  | Some oid =>
      sendToStore (FindByIdAndDelete oid) ;;;
      l <- getCollection ;;
      setCollection (removeFirst oid l) ;;;
      ret (List.find (hasId oid) l)
  end.

(** [Record.find(filter).sort({ field: order })], the filter being either
    absent or [{ name: { $regex: pattern, $options: 'i' } }]. *)
Definition Record_find (regex : option string) (field : SortField) (order : SortOrder)
  : M (list RecordDoc) :=
  sendToStore (FindSorted regex field order) ;;;
  l <- getCollection ;;
  match regex with
  | None => ret (sortBy (leSpec field order) l)
  | Some pattern =>
      match Regex.compile pattern with
      | Some atoms =>
          ret (sortBy (leSpec field order)
                 (List.filter (fun d => Regex.search atoms (name d)) l))
      | None =>
          match regexBeyond P pattern with
          | inl msg => throw msg
          | inr matches =>
              ret (sortBy (leSpec field order)
                     (List.filter (fun d => matches (name d)) l))
          end
      end
  end.

(** [Record.findOne().sort({ field: order })] *)
Definition Record_findOne (field : SortField) (order : SortOrder)
  : M (option RecordDoc) :=
  sendToStore (FindOneSorted field order) ;;;
  l <- getCollection ;;
  ret (head (sortBy (leSpec field order) l)).

(** [Record.countDocuments()] *)
Definition Record_countDocuments : M nat :=
  sendToStore CountDocuments ;;;
  l <- getCollection ;;
  ret (length l).

(** [$project: { name: 1, createdAt: 1, length: { $strLenCP: '$name' } }] *)
Definition project (d : RecordDoc) : Projected :=
  {| p_id := _id d; p_name := name d; p_createdAt := createdAt d;
     p_length := String.length (name d) |}.

(** [{ $sort: { length: -1 } }]: the longer name first. *)
Definition byLengthDescending (a b : Projected) : bool := p_length b <=? p_length a.

(** [Record.aggregate([{ $project }, { $sort: { length: -1 } },
    { $limit: 1 }])]: the sort names the length alone, so which of several
    names of the greatest length comes first is the server's choice. *)
Definition Record_aggregate_longestName : M (list Projected) :=
  sendToStore Aggregate ;;;
  l <- getCollection ;;
  ret (take 1 (sortStage byLengthDescending (tieKeepsScanOrder P) (map project l))).

(** *** Display *)

Definition formatDate (date : option Date) : string :=
  match date with
  | None => "N/A"
  | Some d => toLocaleString P d
  end.

Definition displayLines (index : nat) (record : RecordDoc) : list string :=
  [ nl +:+ "#" +:+ pretty (index + 1);
    "ID: " +:+ _id record;
    "Name: " +:+ name record;
    "Details: " +:+ orElse (details record) "N/A";
    "Created: " +:+ formatDate (Some (createdAt record));
    "Updated: " +:+ formatDate (Some (updatedAt record)) ].

Definition displayRecords (records : list RecordDoc) : M unit :=
  console_logs (concat (imap displayLines records)).

(** *** Backup and export *)

Definition backupFilename (now : Date) : string :=
  let timestamp := beforeDot (replaceColonT (toISOString now)) in
  "backup_" +:+ timestamp +:+ ".json".

Definition createBackup (now : Date) : M unit :=
  records <- Record_find None SortCreatedAt Ascending ;;
  let filename := backupFilename now in
  let filePath := pathJoin BACKUPS_DIR filename in
  writeFile filePath (JsonArray records) ;;;
  console_log ("Backup created: " +:+ filename).

Definition exportHeader (now : Date) (records : list RecordDoc) : list string :=
  [ "Export Timestamp: " +:+ formatDate (Some now);
    "Total Records: " +:+ pretty (length records);
    "File: " +:+ basename EXPORT_FILE_PATH;
    "------------------------------" ].

Definition exportBlock (index : nat) (record : RecordDoc) : list string :=
  [ "#" +:+ pretty (index + 1);
    "ID: " +:+ _id record;
    "Name: " +:+ name record;
    "Details: " +:+ orElse (details record) "N/A";
    "Created: " +:+ formatDate (Some (createdAt record));
    "Updated: " +:+ formatDate (Some (updatedAt record));
    EmptyString ].

Definition exportText (now : Date) (records : list RecordDoc) : string :=
  join nl (exportHeader now records) +:+ nl +:+ nl
    +:+ join nl (concat (imap exportBlock records)).

Definition exportData (now : Date) : M unit :=
  records <- Record_find None SortCreatedAt Ascending ;;
  writeFile EXPORT_FILE_PATH (Utf8Text (exportText now records)) ;;;
  console_log "Data exported successfully to export.txt.".

(** *** The menu actions *)

Definition addRecord (answerName answerDetails : string) (oid : ObjectId)
           (nowCreate nowBackup : Date) : M unit :=
  let name := trim answerName in
  if negb (truthy name) then
    console_log "Name is required. Aborting add operation."
  else
    let details := trim answerDetails in
    newRecord <- Record_create name details oid nowCreate ;;
    console_log (nl +:+ "Record added successfully:") ;;;
    displayRecords [newRecord] ;;;
    createBackup nowBackup.

Definition setName (n : string) (d : RecordDoc) : RecordDoc :=
  {| _id := _id d; name := n; details := details d;
     createdAt := createdAt d; updatedAt := updatedAt d |}.

Definition setDetails (t : string) (d : RecordDoc) : RecordDoc :=
  {| _id := _id d; name := name d; details := t;
     createdAt := createdAt d; updatedAt := updatedAt d |}.

Definition updateRecord (answerId answerName answerDetails : string) (nowSave : Date)
  : M unit :=
  let id := trim answerId in
  if negb (isValidObjectId id) then console_log "Invalid ID format."
  else
    found <- Record_findById id ;;
    match found with
    | None => console_log "Record not found."
    | Some record =>
        let name := trim answerName in
        let record1 := if truthy name then setName name record else record in
        let details := trim answerDetails in
        let record2 := if truthy details then setDetails details record1 else record1 in
        saved <- Document_save record record2 nowSave ;;
        console_log (nl +:+ "Record updated successfully:") ;;;
        displayRecords [saved]
    end.

Definition deleteRecord (answerId answerConfirmation : string) (nowBackup : Date)
  : M unit :=
  let id := trim answerId in
  if negb (isValidObjectId id) then console_log "Invalid ID format."
  else
    let confirmation := toLowerCase (trim answerConfirmation) in
    if negb (String.eqb confirmation "y") then
      console_log "Delete operation cancelled."
    else
      deletedRecord <- Record_findByIdAndDelete id ;;
      match deletedRecord with
      | None => console_log "Record not found."
      | Some _ =>
          console_log "Record deleted successfully." ;;;
          createBackup nowBackup
      end.

Definition listRecords : M unit :=
  records <- Record_find None SortCreatedAt Ascending ;;
  match records with
  | [] => console_log "No records available."
  | _ :: _ =>
      console_log (nl +:+ "All Records:") ;;;
      displayRecords records
  end.

Definition showSearchResults (records : list RecordDoc) : M unit :=
  match records with
  | [] => console_log "No records found."
  | _ :: _ =>
      console_log (nl +:+ "Search Results:") ;;;
      displayRecords records
  end.

Definition searchMenu : string :=
  nl +:+ "Search by:" +:+ nl +:+ "1. Name" +:+ nl +:+ "2. ID".

Definition searchRecords (answerChoice answerTerm : string) : M unit :=
  console_log searchMenu ;;;
  let choice := trim answerChoice in
  if String.eqb choice "1" then
    let name := trim answerTerm in
    if negb (truthy name) then console_log "Search term is required."
    else
      records <- Record_find (Some name) SortCreatedAt Ascending ;;
      showSearchResults records
  else if String.eqb choice "2" then
    let id := trim answerTerm in
    if negb (truthy id) then console_log "ID is required."
    else if isValidObjectId id then
      record <- Record_findById id ;;
      showSearchResults (match record with Some r => [r] | None => [] end)
    else console_log "Invalid ID format."
  else console_log "Invalid choice.".

Definition sortFieldMenu : string :=
  nl +:+ "Sort by:" +:+ nl +:+ "1. Name" +:+ nl +:+ "2. Creation Date".

Definition sortOrderMenu : string :=
  nl +:+ "Order:" +:+ nl +:+ "1. Ascending" +:+ nl +:+ "2. Descending".

Definition sortRecords (answerField answerOrder : string) : M unit :=
  console_log sortFieldMenu ;;;
  let fieldChoice := trim answerField in
  match (if String.eqb fieldChoice "1" then Some SortName
         else if String.eqb fieldChoice "2" then Some SortCreatedAt
         else None) with
  | None => console_log "Invalid selection."
  | Some sortField =>
      console_log sortOrderMenu ;;;
      let orderChoice := trim answerOrder in
      match (if String.eqb orderChoice "1" then Some Ascending
             else if String.eqb orderChoice "2" then Some Descending
             else None) with
      | None => console_log "Invalid selection."
      | Some sortOrder =>
          records <- Record_find None sortField sortOrder ;;
          match records with
          | [] => console_log "No records to sort."
          | _ :: _ =>
              console_log (nl +:+ "Sorted Records:") ;;;
              displayRecords records
          end
      end
  end.

Definition viewVaultStatistics : M unit :=
  totalRecords <- Record_countDocuments ;;
  lastModifiedRecord <- Record_findOne SortUpdatedAt Descending ;;
  earliestRecord <- Record_findOne SortCreatedAt Ascending ;;
  latestRecord <- Record_findOne SortCreatedAt Descending ;;
  longestNameResult <- Record_aggregate_longestName ;;
  let longestName :=
    orElse (match head longestNameResult with
            | Some p => p_name p
            | None => EmptyString
            end) "N/A" in
  let longestNameLength :=
    match head longestNameResult with
    | Some p => p_length p
    | None => 0
    end in
  console_logs
    [ nl +:+ "==== Vault Statistics ====";
      "Total Records: " +:+ pretty totalRecords;
      "Last Modification: " +:+
        formatDate (option_map updatedAt lastModifiedRecord);
      "Longest Name: " +:+ longestName +:+ " (" +:+ pretty longestNameLength
        +:+ " characters)";
      "Earliest Record Date: " +:+
        formatDate (option_map createdAt earliestRecord);
      "Latest Record Date: " +:+
        formatDate (option_map createdAt latestRecord) ].

(** *** The menu loop *)

(** One menu choice together with what the operator types at its
    prompts and what the clock and the identifier generator return
    during it. *)
Inductive Action :=
| AddRecord (answerName answerDetails : string) (oid : ObjectId)
            (nowCreate nowBackup : Date)
| UpdateRecord (answerId answerName answerDetails : string) (nowSave : Date)
| DeleteRecord (answerId answerConfirmation : string) (nowBackup : Date)
| ListRecords
| SearchRecords (answerChoice answerTerm : string)
| SortRecords (answerField answerOrder : string)
| ExportData (now : Date)
| ViewStatistics.

Definition perform (a : Action) : M unit :=
  match a with
  | AddRecord n d oid t1 t2 => addRecord n d oid t1 t2
  | UpdateRecord i n d t => updateRecord i n d t
  | DeleteRecord i c t => deleteRecord i c t
  | ListRecords => listRecords
  | SearchRecords c t => searchRecords c t
  | SortRecords f o => sortRecords f o
  | ExportData t => exportData t
  | ViewStatistics => viewVaultStatistics
  end.

(** The vault that an action leaves, whether it returned or threw (the
    loop of [main] catches what it throws and goes on). *)
Definition after (a : Action) (v : Vault) : Vault := snd (perform a v).

(** The lines an action prints with [console.log]. *)
Definition printed (a : Action) (v : Vault) : list string := snd (fst (perform a v)).

(** What [main] adds with [console.error] when the action throws. *)
Definition reported (a : Action) (v : Vault) : option string :=
  match fst (fst (perform a v)) with
  | Normal _ => None
  | Throw msg => Some ("An error occurred: " +:+ msg)
  end.
End Program.

(** ** A platform instance for closed examples *)

Module Reference.
Import JsString.

Definition isHexDigit (c : ascii) : bool :=
  let n := code c in
  ((48 <=? n) && (n <=? 57)) || ((97 <=? n) && (n <=? 102))
  || ((65 <=? n) && (n <=? 70)).

Fixpoint allChars (p : ascii -> bool) (s : string) : bool :=
  match s with
  | EmptyString => true
  | String c s' => p c && allChars p s'
  end.

(** The driver's rule for a string: 24 hexadecimal digits. *)
Definition castHex24 (s : string) : option ObjectId :=
  if (String.length s =? 24) && allChars isHexDigit s
  then Some (toLowerCase s) else None.

(** Identifiers are 24 hexadecimal digits, dates print in ISO form, the
    engine rejects every pattern it is asked about, and the [$sort] stage
    keeps the scan order among equal keys. *)
Definition platform : Platform :=
  {| castObjectId := castHex24;
     toLocaleString := JsDate.toISOString;
     regexBeyond := fun _ => inl "Regular expression is invalid";
     tieKeepsScanOrder := fun _ _ => true |}.

(** The same platform with a [$sort] stage that delivers documents with
    equal keys in the reverse of the scan order. *)
Definition platformReversingTies : Platform :=
  {| castObjectId := castHex24;
     toLocaleString := JsDate.toISOString;
     regexBeyond := fun _ => inl "Regular expression is invalid";
     tieKeepsScanOrder := fun _ _ => false |}.

Definition oid1 : ObjectId := "65a000000000000000000001".
Definition oid2 : ObjectId := "65a000000000000000000002".
Definition oid3 : ObjectId := "65a000000000000000000003".
End Reference.

(** Vaults and records for closed examples. *)
Module Sample.
Import Reference.

Definition passport : RecordDoc :=
  {| _id := oid1; name := "Passport"; details := "blue";
     createdAt := 1700000000000%Z; updatedAt := 1700000000000%Z |}.

Definition router : RecordDoc :=
  {| _id := oid2; name := "Router"; details := "Home WiFi";
     createdAt := 1700000050000%Z; updatedAt := 1700000060000%Z |}.

Definition visaCard : RecordDoc :=
  {| _id := oid3; name := "VisaCard"; details := EmptyString;
     createdAt := 1700000070000%Z; updatedAt := 1700000070000%Z |}.

Definition vault1 : Vault :=
  {| collection := [passport]; files := ∅; storeLog := [] |}.

Definition vault3 : Vault :=
  {| collection := [passport; router; visaCard]; files := ∅; storeLog := [] |}.
End Sample.

(** ** Vocabulary of the properties *)

(** A record as the data model wants it: a name that is not blank, and a
    creation date not after the modification date. *)
Definition validRecord (d : RecordDoc) : Prop :=
  JsString.trim (name d) <> EmptyString /\ (createdAt d <= updatedAt d)%Z.

(** The collection scan meets the records in the order of their creation
    dates. *)
Definition inCreationOrder (l : list RecordDoc) : Prop :=
  StronglySorted (fun a b => (createdAt a <= createdAt b)%Z) l.

(** The clock readings an action consumes. *)
Definition clockReadings (a : Action) : list JsDate.Date :=
  match a with
  | AddRecord _ _ _ nowCreate nowBackup => [nowCreate; nowBackup]
  | UpdateRecord _ _ _ nowSave => [nowSave]
  | DeleteRecord _ _ nowBackup => [nowBackup]
  | ExportData now => [now]
  | ListRecords | SearchRecords _ _ | SortRecords _ _ | ViewStatistics => []
  end.

(** The clock has not gone back: no reading of the action is earlier than
    a date already stored. *)
Definition clockAhead (a : Action) (v : Vault) : Prop :=
  forall t d, In t (clockReadings a) -> In d (collection v) ->
    (createdAt d <= t)%Z /\ (updatedAt d <= t)%Z.

(** The full collection in the order [{ createdAt: 1 }]. *)
Definition snapshot (v : Vault) : list RecordDoc :=
  sortBy (leSpec SortCreatedAt Ascending) (collection v).

Definition backupPath (now : JsDate.Date) : string :=
  pathJoin BACKUPS_DIR (backupFilename now).

(** The clock reading of the backup that an action owes: an add whose
    name is not blank, a delete that is confirmed and finds its record. *)
Definition backupDue (P : Platform) (a : Action) (v : Vault) : option JsDate.Date :=
  match a with
  | AddRecord answerName _ _ _ nowBackup =>
      if JsString.truthy (JsString.trim answerName) then Some nowBackup else None
  | DeleteRecord answerId answerConfirmation nowBackup =>
      match castObjectId P (JsString.trim answerId) with
      | Some oid =>
          if String.eqb (JsString.toLowerCase (JsString.trim answerConfirmation)) "y"
          then match List.find (hasId oid) (collection v) with
               | Some _ => Some nowBackup
               | None => None
               end
          else None
      | None => None
      end
  | _ => None
  end.

(** [needle] occurs in [hay] as a run of consecutive characters. *)
Definition isSubstring (needle hay : string) : Prop :=
  exists before after, hay = before +:+ needle +:+ after.

(** The vault with the store call [c] added to its log. *)
Definition logged (calls : list StoreCall) (v : Vault) : Vault :=
  {| collection := collection v; files := files v;
     storeLog := storeLog v ++ calls |}.

(** The document that [updateRecord] holds after the two assignments
    [if (name) record.name = name] and [if (details) record.details =
    details]. *)
Definition edited (answerName answerDetails : string) (record : RecordDoc) : RecordDoc :=
  let name := JsString.trim answerName in
  let record1 := if JsString.truthy name then setName name record else record in
  let details := JsString.trim answerDetails in
  if JsString.truthy details then setDetails details record1 else record1.

(** The clock reading of an update that changes its record is not before
    the creation date of that record; no condition on an update that
    changes nothing, nor on another action. *)
Definition savedAfterCreation (P : Platform) (a : Action) (v : Vault) : Prop :=
  match a with
  | UpdateRecord answerId answerName answerDetails nowSave =>
      forall oid r,
        castObjectId P (JsString.trim answerId) = Some oid ->
        List.find (hasId oid) (collection v) = Some r ->
        edited answerName answerDetails r <> r ->
        (createdAt r <= nowSave)%Z
  | _ => True
  end.

(** The seven lines that the export gives to the record at position
    [index] of its listing. *)
Definition exportEntry (P : Platform) (index : nat) (r : RecordDoc) : list string :=
  [ "#" +:+ pretty (index + 1);
    "ID: " +:+ _id r;
    "Name: " +:+ name r;
    "Details: " +:+ JsString.orElse (details r) "N/A";
    "Created: " +:+ toLocaleString P (createdAt r);
    "Updated: " +:+ toLocaleString P (updatedAt r);
    EmptyString ].

(** The report of an export, written out as the text it is meant to be.
    Every line ends in a line feed.  A record gives six lines: its number,
    identifier, name, details (N/A when it has none) and its two dates. *)
Definition lineFeed : string := String "010"%char EmptyString.

Definition reportLine (text : string) : string := text +:+ lineFeed.

Definition reportEntry (P : Platform) (number : nat) (r : RecordDoc) : string :=
  reportLine ("#" +:+ pretty number)
  +:+ reportLine ("ID: " +:+ _id r)
  +:+ reportLine ("Name: " +:+ name r)
  +:+ reportLine ("Details: " +:+ match details r with
                                  | EmptyString => "N/A"
                                  | String _ _ => details r
                                  end)
  +:+ reportLine ("Created: " +:+ toLocaleString P (createdAt r))
  +:+ reportLine ("Updated: " +:+ toLocaleString P (updatedAt r)).

(** The records in turn, numbered from [number], an empty line between
    two of them. *)
Fixpoint reportListing (P : Platform) (number : nat) (records : list RecordDoc)
  : string :=
  match records with
  | [] => EmptyString
  | r :: rest =>
      match rest with
      | [] => reportEntry P number r
      | _ :: _ => reportEntry P number r +:+ lineFeed +:+ reportListing P (S number) rest
      end
  end.

(** The header (time of the export, number of records, file name, a
    rule), an empty line, and the records numbered from 1. *)
Definition reportText (P : Platform) (now : JsDate.Date) (records : list RecordDoc)
  : string :=
  reportLine ("Export Timestamp: " +:+ toLocaleString P now)
  +:+ reportLine ("Total Records: " +:+ pretty (length records))
  +:+ reportLine "File: export.txt"
  +:+ reportLine "------------------------------"
  +:+ lineFeed
  +:+ reportListing P 1 records.

(** The record that an update displays and leaves in the store: the
    edited document, with the modification date moved to the clock
    reading when an assignment changed it. *)
Definition savedRecord (answerName answerDetails : string) (now : JsDate.Date)
           (r : RecordDoc) : RecordDoc :=
  let e := edited answerName answerDetails r in
  if String.eqb (name e) (name r) && String.eqb (details e) (details r) then e
  else {| _id := _id e; name := name e; details := details e;
          createdAt := createdAt e; updatedAt := now |}.

(** A pattern without any character that has a meaning of its own. *)
Fixpoint isPlain (pattern : string) : bool :=
  match pattern with
  | EmptyString => true
  | String c rest => negb (Regex.isMeta c) && isPlain rest
  end.

Fixpoint literals (pattern : string) : list Regex.Atom :=
  match pattern with
  | EmptyString => []
  | String c rest => Regex.Lit c :: literals rest
  end.

(** The lines a search prints below its menu for the records found. *)
Definition searchOutput (P : Platform) (records : list RecordDoc) : list string :=
  match records with
  | [] => ["No records found."]
  | _ :: _ => (JsString.nl +:+ "Search Results:") :: concat (imap (displayLines P) records)
  end.

(** The vaults that the menu loop reaches from the empty vault while the
    clock does not go back. *)
Inductive Reachable (P : Platform) : Vault -> Prop :=
| reach_empty : Reachable P emptyVault
| reach_step (a : Action) (v : Vault) :
    Reachable P v -> clockAhead a v -> Reachable P (after P a v).

(** The date and time of [toISOString], down to the second, of an
    instant given in whole seconds since the epoch. *)
Definition isoSeconds (s : Z) : string :=
  let days := (s / 86400)%Z in
  let secs := (s mod 86400)%Z in
  let '(y, m, d) := JsDate.civil days in
  JsDate.isoYear y +:+ "-" +:+ JsDate.pad 2 m +:+ "-" +:+ JsDate.pad 2 d +:+ "T"
    +:+ JsDate.pad 2 (secs / 3600) +:+ ":" +:+ JsDate.pad 2 (secs / 60 mod 60) +:+ ":"
    +:+ JsDate.pad 2 (secs mod 60).

(** No full stop occurs in the string. *)
Definition noDot (s : string) : Prop := Regex.occurs "."%char s = false.

(** ** The menu and the loop of [main] *)

(** What the operator and the platform supply during one pass of the
    loop: the choice typed at the menu, the answers to the prompts of the
    action in the order they are asked, the identifier the driver would
    generate, and two readings of the clock. *)
Record Turn := {
  typed : string;
  answer1 : string;
  answer2 : string;
  answer3 : string;
  generatedId : ObjectId;
  clock1 : JsDate.Date;
  clock2 : JsDate.Date
}.

(** What a menu option runs: one of the eight actions, or [exitApp]. *)
Inductive MenuAction :=
| Run (a : Action)
| ExitApp.

Record MenuOption := {
  key : string;
  label : string;
  action : Turn -> MenuAction
}.

Definition menuOptions : list MenuOption :=
  [ {| key := "1"; label := "Add Record";
       action := fun t => Run (AddRecord (answer1 t) (answer2 t) (generatedId t)
                                         (clock1 t) (clock2 t)) |};
    {| key := "2"; label := "Update Record";
       action := fun t => Run (UpdateRecord (answer1 t) (answer2 t) (answer3 t)
                                            (clock1 t)) |};
    {| key := "3"; label := "Delete Record";
       action := fun t => Run (DeleteRecord (answer1 t) (answer2 t) (clock1 t)) |};
    {| key := "4"; label := "List All Records"; action := fun _ => Run ListRecords |};
    {| key := "5"; label := "Search Records";
       action := fun t => Run (SearchRecords (answer1 t) (answer2 t)) |};
    {| key := "6"; label := "Sort Records";
       action := fun t => Run (SortRecords (answer1 t) (answer2 t)) |};
    {| key := "7"; label := "Export Data"; action := fun t => Run (ExportData (clock1 t)) |};
    {| key := "8"; label := "View Vault Statistics"; action := fun _ => Run ViewStatistics |};
    {| key := "0"; label := "Exit"; action := fun _ => ExitApp |} ].

(** The lines [promptMenu] prints; it returns the trimmed answer. *)
Definition promptMenu : list string :=
  (JsString.nl +:+ "==== Vault Menu ====")
    :: map (fun option => key option +:+ ". " +:+ label option) menuOptions.

(** [menuOptions.find(option => option.key === choice)] *)
Definition selectedOption (choice : string) : option MenuOption :=
  List.find (fun option => String.eqb (key option) choice) menuOptions.

(** The state of a session: what went to standard output and to standard
    error, the vault, and whether [process.exit] was reached. *)
Record Session := {
  stdout : list string;
  stderr : list string;
  vault : Vault;
  exited : bool
}.

Definition emit (out err : list string) (s : Session) : Session :=
  {| stdout := out ++ stdout s; stderr := err ++ stderr s;
     vault := vault s; exited := exited s |}.

(** The loop of [main] over the turns that are typed; when the turns run
    out the program waits at the menu. *)
Fixpoint mainLoop (P : Platform) (turns : list Turn) (v : Vault) : Session :=
  match turns with
  | [] => {| stdout := []; stderr := []; vault := v; exited := false |}
  | t :: rest =>
      let choice := JsString.trim (typed t) in
      match selectedOption choice with
      | None =>
          emit (promptMenu ++ ["Invalid selection. Please try again."]) []
               (mainLoop P rest v)
      | Some option =>
          match action option t with
          | ExitApp =>
              {| stdout := promptMenu ++ ["Exiting application..."]; stderr := [];
                 vault := v; exited := true |}
          | Run a =>
              let result := perform P a v in
              emit (promptMenu ++ snd (fst result))
                   (match fst (fst result) with
                    | Normal _ => []
                    | Throw msg => ["An error occurred: " +:+ msg]
                    end)
                   (mainLoop P rest (snd result))
          end
      end
  end.

(** ** More vocabulary *)

(** No two records carry the same identifier. *)
Definition uniqueIds (l : list RecordDoc) : Prop := List.NoDup (map _id l).

(** The clock does not go back during the session: at every turn that
    runs an action, no reading of the turn is earlier than a date stored
    at that moment. *)
Fixpoint clockNeverBack (P : Platform) (turns : list Turn) (v : Vault) : Prop :=
  match turns with
  | [] => True
  | t :: rest =>
      match selectedOption (JsString.trim (typed t)) with
      | None => clockNeverBack P rest v
      | Some option =>
          match action option t with
          | ExitApp => True
          | Run a => clockAhead a v /\ clockNeverBack P rest (after P a v)
          end
      end
  end.

(** The same conditions as tests. *)
Definition clockAheadb (a : Action) (v : Vault) : bool :=
  forallb (fun t =>
             forallb (fun d => (createdAt d <=? t)%Z && (updatedAt d <=? t)%Z)
                     (collection v))
          (clockReadings a).

Fixpoint clockNeverBackb (P : Platform) (turns : list Turn) (v : Vault) : bool :=
  match turns with
  | [] => true
  | t :: rest =>
      match selectedOption (JsString.trim (typed t)) with
      | None => clockNeverBackb P rest v
      | Some option =>
          match action option t with
          | ExitApp => true
          | Run a => clockAheadb a v && clockNeverBackb P rest (after P a v)
          end
      end
  end.


(** The lines [displayRecords] prints for the record at position [index]. *)
Definition displayEntry (P : Platform) (index : nat) (r : RecordDoc) : list string :=
  [ JsString.nl +:+ "#" +:+ pretty (index + 1);
    "ID: " +:+ _id r;
    "Name: " +:+ name r;
    "Details: " +:+ JsString.orElse (details r) "N/A";
    "Created: " +:+ toLocaleString P (createdAt r);
    "Updated: " +:+ toLocaleString P (updatedAt r) ].

(** The field and the order that the answers of [sortRecords] select. *)
Definition chosenField (answer : string) : option SortField :=
  if String.eqb answer "1" then Some SortName
  else if String.eqb answer "2" then Some SortCreatedAt
  else None.

Definition chosenOrder (answer : string) : option SortOrder :=
  if String.eqb answer "1" then Some Ascending
  else if String.eqb answer "2" then Some Descending
  else None.

(** The lines below the heading of a listing of [records]. *)
Definition displayBody (P : Platform) (records : list RecordDoc) : list string :=
  concat (imap (displayLines P) records).

(** *** Reading a backup name back *)

(** Day number of a proleptic Gregorian date (days since 1970-01-01). *)
Definition daysFromCivil (y m d : Z) : Z :=
  (let y' := if m <=? 2 then y - 1 else y in
   let era := y' / 400 in
   let yoe := y' - era * 400 in
   let mp := if 2 <? m then m - 3 else m + 9 in
   let doy := (153 * mp + 2) / 5 + d - 1 in
   let doe := yoe * 365 + yoe / 4 - yoe / 100 + doy in
   era * 146097 + doe - 719468)%Z.

Definition digitValue (c : ascii) : Z := (Z.of_nat (JsString.code c) - 48)%Z.

Definition isDigit (c : ascii) : bool :=
  (48 <=? JsString.code c) && (JsString.code c <=? 57).

(** The number written by the first [n] characters, and the rest. *)
Fixpoint readNumber (n : nat) (s : string) (acc : Z) : Z * string :=
  match n, s with
  | S n', String c s' => readNumber n' s' (10 * acc + digitValue c)%Z
  | _, _ => (acc, s)
  end.

Fixpoint dropChars (n : nat) (s : string) : string :=
  match n, s with
  | S n', String _ s' => dropChars n' s'
  | _, _ => s
  end.

(** The second that a text YYYY-MM-DD-HH-mm-ss names, in seconds since
    the epoch. *)
Definition stampSeconds (stamp : string) : Z :=
  let '(y, s1) := readNumber 4 stamp 0 in
  let '(mo, s2) := readNumber 2 (dropChars 1 s1) 0 in
  let '(d, s3) := readNumber 2 (dropChars 1 s2) 0 in
  let '(h, s4) := readNumber 2 (dropChars 1 s3) 0 in
  let '(mi, s5) := readNumber 2 (dropChars 1 s4) 0 in
  let '(se, _) := readNumber 2 (dropChars 1 s5) 0 in
  (daysFromCivil y mo d * 86400 + h * 3600 + mi * 60 + se)%Z.

(** The second named by the path of a backup, [backups/backup_<stamp>.json]. *)
Definition backupSecond (path : string) : Z := stampSeconds (dropChars 15 path).

(** The year of the instant is written with four digits (0000 to 9999). *)
Definition fourDigitYear (t : JsDate.Date) : Prop :=
  let '(y, _, _) := JsDate.civil (t / JsDate.msPerDay) in (0 <= y <= 9999)%Z.

(** A check run on every number from 0 up to, not including, [n]. *)
Definition allBelow (check : Z -> bool) (n : positive) : bool :=
  snd (Pos.iter (fun state => ((fst state + 1)%Z, snd state && check (fst state)))
                (0%Z, true) n).

Definition twoDigits (n : Z) : bool :=
  match JsDate.pad 2 n with
  | String a (String b EmptyString) =>
      isDigit a && isDigit b && (10 * digitValue a + digitValue b =? n)%Z
  | _ => false
  end.

Definition fourDigits (n : Z) : bool :=
  match JsDate.pad 4 n with
  | String a (String b (String c (String d EmptyString))) =>
      isDigit a && isDigit b && isDigit c && isDigit d
      && (10 * (10 * (10 * digitValue a + digitValue b) + digitValue c)
          + digitValue d =? n)%Z
  | _ => false
  end.

(** Days run in cycles of 400 years (146097 days, counted from a first
    of March).  The year of the cycle that [civil] computes for the day
    [doe] of the cycle, the first day of a year of the cycle, and its last
    day. *)
Definition yearOfCycleDay (doe : Z) : Z :=
  ((doe - doe / 1460 + doe / 36524 - doe / 146096) / 365)%Z.

Definition firstDayOfCycleYear (y : Z) : Z := (365 * y + y / 4 - y / 100)%Z.

Definition lastDayOfCycleYear (y : Z) : Z :=
  (if y =? 399 then 146096 else firstDayOfCycleYear (y + 1) - 1)%Z.

(** The first and the last day of the year [y] of the cycle are given
    the year [y]. *)
Definition cycleYearEnds (y : Z) : bool :=
  ((yearOfCycleDay (firstDayOfCycleYear y) =? y)
   && (yearOfCycleDay (lastDayOfCycleYear y) =? y))%Z.

(** The action with every answer replaced by its trimmed form. *)
Definition trimAnswers (a : Action) : Action :=
  match a with
  | AddRecord n d oid t1 t2 => AddRecord (JsString.trim n) (JsString.trim d) oid t1 t2
  | UpdateRecord i n d t =>
      UpdateRecord (JsString.trim i) (JsString.trim n) (JsString.trim d) t
  | DeleteRecord i c t => DeleteRecord (JsString.trim i) (JsString.trim c) t
  | SearchRecords c t => SearchRecords (JsString.trim c) (JsString.trim t)
  | SortRecords f o => SortRecords (JsString.trim f) (JsString.trim o)
  | ListRecords | ExportData _ | ViewStatistics => a
  end.

(** Turns for closed examples of a session. *)
Module Script.
Import Reference.

Definition oid4 : ObjectId := "65a000000000000000000004".

Definition addBankPin : Turn :=
  {| typed := " 1 "; answer1 := " Bank PIN "; answer2 := "1234"; answer3 := EmptyString;
     generatedId := oid4; clock1 := 1700000090000%Z; clock2 := 1700000090500%Z |}.

Definition renameRouter : Turn :=
  {| typed := "2"; answer1 := "65a000000000000000000002"; answer2 := "Router 5G";
     answer3 := EmptyString; generatedId := oid4;
     clock1 := 1700000095000%Z; clock2 := 1700000095000%Z |}.

Definition searchBadPattern : Turn :=
  {| typed := "5"; answer1 := "1"; answer2 := "(pin"; answer3 := EmptyString;
     generatedId := oid4; clock1 := 1700000096000%Z; clock2 := 1700000096000%Z |}.

Definition unknownKey : Turn :=
  {| typed := "9"; answer1 := EmptyString; answer2 := EmptyString; answer3 := EmptyString;
     generatedId := oid4; clock1 := 1700000097000%Z; clock2 := 1700000097000%Z |}.

Definition deletePassport : Turn :=
  {| typed := "3"; answer1 := "65a000000000000000000001"; answer2 := "Y";
     answer3 := EmptyString; generatedId := oid4;
     clock1 := 1700000098000%Z; clock2 := 1700000098000%Z |}.

Definition session : list Turn :=
  [addBankPin; renameRouter; searchBadPattern; unknownKey; deletePassport].
End Script.

(** ** Proof steps *)

(** Case analysis on what the next [match] of the goal inspects. *)
Ltac case_scrutinee :=
  match goal with
  | |- context [match ?x with _ => _ end] => destruct x
  end.

(** Case analysis on the innermost test that blocks evaluation. *)
Ltac split_on x :=
  match x with
  | context [match ?y with _ => _ end] => split_on y
  | _ => destruct x
  end.

(** Evaluate, splitting on every test the evaluation gets stuck on. *)
Ltac crunch :=
  cbn;
  repeat (match goal with
          | |- context [match ?x with _ => _ end] => split_on x; cbn
          end);
  auto.

(** * Properties *)

(** ** Checks of the primitives *)

Example iso_epoch : JsDate.toISOString 0%Z = "1970-01-01T00:00:00.000Z".
Proof. vm_compute. reflexivity. Qed.

Example iso_2023 : JsDate.toISOString 1700000000123%Z = "2023-11-14T22:13:20.123Z".
Proof. vm_compute. reflexivity. Qed.

Example iso_leap_day : JsDate.toISOString 1709164800000%Z = "2024-02-29T00:00:00.000Z".
Proof. vm_compute. reflexivity. Qed.

Example iso_before_epoch : JsDate.toISOString (-1)%Z = "1969-12-31T23:59:59.999Z".
Proof. vm_compute. reflexivity. Qed.

Example trim_both_ends : JsString.trim "  a b  " = "a b".
Proof. reflexivity. Qed.

Example backup_name : backupFilename 1700000000123%Z = "backup_2023-11-14-22-13-20.json".
Proof. vm_compute. reflexivity. Qed.

Example basename_nested : basename "backups/2023/export.txt" = "export.txt".
Proof. reflexivity. Qed.

(** ** Strings *)

Section StringFacts.
Import JsString.

Lemma truthy_false_iff s : truthy s = false <-> s = EmptyString.
Proof. destruct s; cbn; split; congruence. Qed.

Lemma truthy_true_iff s : truthy s = true <-> s <> EmptyString.
Proof. destruct s; cbn; split; congruence. Qed.

Lemma append_cons (x : ascii) (a b : string) :
  String x a +:+ b = String x (a +:+ b).
Proof. reflexivity. Qed.

Lemma append_nil (b : string) : EmptyString +:+ b = b.
Proof. reflexivity. Qed.

Lemma append_assoc (a b c : string) : (a +:+ b) +:+ c = a +:+ (b +:+ c).
Proof.
  induction a as [|x a IH]; [reflexivity|].
  rewrite !append_cons, IH. reflexivity.
Qed.

Lemma append_empty (a : string) : a +:+ EmptyString = a.
Proof.
  induction a as [|x a IH]; [reflexivity|].
  rewrite append_cons, IH. reflexivity.
Qed.

Lemma trimEnd_idem s : trimEnd (trimEnd s) = trimEnd s.
Proof.
  induction s as [|c s IH]; [reflexivity|].
  cbn. destruct (isWhiteSpace c && isEmpty (trimEnd s)) eqn:E; [reflexivity|].
  cbn. rewrite IH, E. reflexivity.
Qed.

Lemma trimStart_shape s :
  trimStart s = EmptyString
  \/ exists c u, trimStart s = String c u /\ isWhiteSpace c = false.
Proof.
  induction s as [|c s IH]; [left; reflexivity|].
  cbn. destruct (isWhiteSpace c) eqn:E; [exact IH|].
  right. exists c, s. split; [reflexivity | exact E].
Qed.

Lemma trimStart_trim s : trimStart (trim s) = trim s.
Proof.
  unfold trim. destruct (trimStart_shape s) as [E | (c & u & E & W)]; rewrite E.
  - reflexivity.
  - cbn. rewrite W. cbn. rewrite W. reflexivity.
Qed.

Lemma trim_idem s : trim (trim s) = trim s.
Proof.
  unfold trim at 1. rewrite trimStart_trim. unfold trim. apply trimEnd_idem.
Qed.
End StringFacts.

(** ** Sorting *)

Section SortFacts.
Context {A : Type} (le : A -> A -> bool).

Lemma insertSorted_perm x l : Permutation (insertSorted le x l) (x :: l).
Proof.
  induction l as [|y l IH]; cbn; [reflexivity|].
  destruct (le x y); [reflexivity|].
  rewrite IH. apply perm_swap.
Qed.

Lemma sortBy_cons x l : sortBy le (x :: l) = insertSorted le x (sortBy le l).
Proof. reflexivity. Qed.

Lemma sortBy_perm l : Permutation (sortBy le l) l.
Proof.
  induction l as [|x l IH]; [reflexivity|].
  rewrite sortBy_cons, insertSorted_perm. constructor. exact IH.
Qed.

Lemma sortBy_length l : length (sortBy le l) = length l.
Proof. apply Permutation_length, sortBy_perm. Qed.

Lemma head_insertSorted x l :
  head (insertSorted le x l)
  = match head l with
    | None => Some x
    | Some y => if le x y then Some x else Some y
    end.
Proof. destruct l as [|y l]; cbn; [reflexivity|]. destruct (le x y); reflexivity. Qed.

Hypothesis le_total : forall a b, le a b = true \/ le b a = true.
Hypothesis le_trans : forall a b c, le a b = true -> le b c = true -> le a c = true.

Lemma insertSorted_sorted x l :
  StronglySorted (fun a b => le a b = true) l ->
  StronglySorted (fun a b => le a b = true) (insertSorted le x l).
Proof using le_total le_trans.
  induction 1 as [|y l Hs IH Hy]; cbn.
  - repeat constructor.
  - destruct (le x y) eqn:E.
    + constructor; [constructor; assumption|].
      constructor; [exact E|].
      eapply Forall_impl; [exact Hy|]. intros z Hz. cbn in Hz. eauto.
    + constructor; [exact IH|].
      assert (Hyx : le y x = true) by (destruct (le_total x y); congruence).
      eapply Permutation_Forall; [symmetry; apply insertSorted_perm|].
      constructor; assumption.
Qed.

Lemma sortBy_sorted l : StronglySorted (fun a b => le a b = true) (sortBy le l).
Proof using le_total le_trans.
  induction l as [|x l IH]; [constructor|].
  rewrite sortBy_cons. apply insertSorted_sorted, IH.
Qed.

(** The first document of the sorted sequence is the first document of
    the scan among those that no document precedes in the order. *)
Lemma head_sortBy l m :
  head (sortBy le l) = Some m ->
  exists l1 l2, l = l1 ++ m :: l2
    /\ (forall y, In y l1 -> le y m = false)
    /\ (forall y, In y l -> le m y = true).
Proof using le_total le_trans.
  revert m. induction l as [|x l IH]; intros m Hm; [discriminate|].
  rewrite sortBy_cons, head_insertSorted in Hm.
  destruct (head (sortBy le l)) as [y|] eqn:Hy.
  - destruct (IH y eq_refl) as (l1 & l2 & El & Hbefore & Hall).
    destruct (le x y) eqn:E; simplify_eq.
    + exists [], (l1 ++ y :: l2). split; [reflexivity|]. split; [intros ? []|].
      intros z [<-|Hz]; [destruct (le_total m m); assumption|]. eauto.
    + exists (x :: l1), l2. split; [reflexivity|]. split.
      * intros z [<-|Hz]; auto.
      * intros z [Hz|Hz]; [subst z; destruct (le_total x m); congruence | auto].
  - simplify_eq.
    assert (l = []) as ->.
    { destruct l as [|z l]; [reflexivity|]. exfalso.
      pose proof (sortBy_length (z :: l)) as HL.
      destruct (sortBy le (z :: l)); cbn in *; congruence. }
    exists [], []. split; [reflexivity|]. split; [intros ? []|].
    intros z [<-|[]]. destruct (le_total m m); assumption.
Qed.
End SortFacts.

Section StageFacts.
Context {A : Type} (le keeps : A -> A -> bool).

Lemma insertTied_perm x l : Permutation (insertTied le keeps x l) (x :: l).
Proof.
  induction l as [|y l IH]; cbn; [reflexivity|].
  destruct (le x y && (negb (le y x) || keeps x y)); [reflexivity|].
  rewrite IH. apply perm_swap.
Qed.

Lemma sortStage_cons x l :
  sortStage le keeps (x :: l) = insertTied le keeps x (sortStage le keeps l).
Proof. reflexivity. Qed.

Lemma sortStage_perm l : Permutation (sortStage le keeps l) l.
Proof.
  induction l as [|x l IH]; [reflexivity|].
  rewrite sortStage_cons, insertTied_perm. constructor. exact IH.
Qed.

Hypothesis le_total : forall a b, le a b = true \/ le b a = true.
Hypothesis le_trans : forall a b c, le a b = true -> le b c = true -> le a c = true.

Lemma insertTied_sorted x l :
  StronglySorted (fun a b => le a b = true) l ->
  StronglySorted (fun a b => le a b = true) (insertTied le keeps x l).
Proof using le_total le_trans.
  induction 1 as [|y l Hs IH Hy]; cbn.
  - repeat constructor.
  - destruct (le x y && (negb (le y x) || keeps x y)) eqn:E.
    + apply andb_true_iff in E as [E _].
      constructor; [constructor; assumption|].
      constructor; [exact E|].
      eapply Forall_impl; [exact Hy|]. intros z Hz. cbn in Hz. eauto.
    + constructor; [exact IH|].
      assert (Hyx : le y x = true).
      { destruct (le y x) eqn:Eyx; [reflexivity|].
        destruct (le_total x y) as [Exy|Exy]; [|congruence].
        rewrite Exy in E. discriminate E. }
      eapply Permutation_Forall; [symmetry; apply insertTied_perm|].
      constructor; assumption.
Qed.

(** Whatever the server does with equal keys, the stage delivers the
    documents ordered by the key. *)
Lemma sortStage_sorted l :
  StronglySorted (fun a b => le a b = true) (sortStage le keeps l).
Proof using le_total le_trans.
  induction l as [|x l IH]; [constructor|].
  rewrite sortStage_cons. apply insertTied_sorted, IH.
Qed.
End StageFacts.

Lemma StronglySorted_weaken {A} (R S : A -> A -> Prop) (l : list A) :
  (forall a b, R a b -> S a b) -> StronglySorted R l -> StronglySorted S l.
Proof.
  intros HRS. induction 1 as [|x l Hs IH Hx]; constructor; [exact IH|].
  eapply Forall_impl; [exact Hx|]. intros b Hb. apply HRS, Hb.
Qed.

Lemma StronglySorted_suffix {A} (R : A -> A -> Prop) (l1 l2 : list A) :
  StronglySorted R (l1 ++ l2) -> StronglySorted R l2.
Proof.
  induction l1 as [|x l1 IH]; cbn; [trivial|].
  intros H. apply StronglySorted_inv in H as [H _]. apply IH, H.
Qed.

Lemma snapshot_perm v : Permutation (snapshot v) (collection v).
Proof. apply sortBy_perm. Qed.

Lemma snapshot_sorted v : inCreationOrder (snapshot v).
Proof.
  unfold inCreationOrder, snapshot.
  eapply StronglySorted_weaken; [|apply sortBy_sorted].
  - intros a b H. cbn in H. lia.
  - intros a b. cbn. lia.
  - intros a b c. cbn. lia.
Qed.

(** ** The name of a backup *)

Section BackupName.
Import JsString JsDate.

Lemma noDot_app (a b : string) : noDot a -> noDot b -> noDot (a +:+ b).
Proof.
  unfold noDot. intros Ha Hb. induction a as [|x a IH]; [exact Hb|].
  rewrite append_cons. cbn in *. apply orb_false_iff in Ha as [Hx Ha].
  rewrite Hx. cbn. apply IH, Ha.
Qed.

Lemma digit_is_no_dot (x : N) : Ascii.eqb "."%char (pretty_N_char x) = false.
Proof.
  unfold pretty_N_char. destruct x as [|p]; [reflexivity|].
  do 4 (try (destruct p as [p|p|]; try reflexivity)).
Qed.

Lemma noDot_digit (x : N) (s : string) :
  noDot s -> noDot (String (pretty_N_char x) s).
Proof.
  unfold noDot. intros Hs. cbn [Regex.occurs]. rewrite Hs, digit_is_no_dot. reflexivity.
Qed.

Lemma noDot_pretty_N_go (x : N) (s : string) : noDot s -> noDot (pretty_N_go x s).
Proof.
  revert s. induction (N.lt_wf_0 x) as [x _ IH]; intros s Hs.
  destruct (decide (0 < x)%N) as [Hx|Hx].
  - rewrite pretty_N_go_step by exact Hx.
    apply IH; [apply N.div_lt; lia | apply noDot_digit, Hs].
  - assert (x = 0%N) as -> by lia. rewrite pretty_N_go_0. exact Hs.
Qed.

Lemma noDot_pretty_N (x : N) : noDot (pretty x).
Proof.
  unfold pretty, pretty_N. case_decide; [reflexivity|].
  apply noDot_pretty_N_go. reflexivity.
Qed.

Lemma noDot_pretty_Z (x : Z) : noDot (pretty x).
Proof.
  unfold pretty, pretty_Z. destruct x as [|p|p].
  - reflexivity.
  - apply noDot_pretty_N.
  - apply noDot_app; [reflexivity | apply noDot_pretty_N].
Qed.

Lemma noDot_pad (w : nat) (n : Z) : noDot (pad w n).
Proof.
  induction w as [|w IH]; [reflexivity|].
  cbn [pad]. destruct w as [|w]; [apply noDot_pretty_Z|].
  case_match; [|apply noDot_pretty_Z].
  apply noDot_app; [reflexivity | exact IH].
Qed.

Lemma noDot_isoYear (y : Z) : noDot (isoYear y).
Proof.
  unfold isoYear. repeat case_match; try apply noDot_pad;
    (apply noDot_app; [reflexivity | apply noDot_pad]).
Qed.

Lemma noDot_isoSeconds (s : Z) : noDot (isoSeconds s).
Proof.
  unfold isoSeconds. destruct (civil (s / 86400)) as [[y m] d].
  repeat (apply noDot_app;
          [first [apply noDot_isoYear | apply noDot_pad | reflexivity]|]).
  apply noDot_pad.
Qed.

(** The text of an instant is the text of its second, then the
    milliseconds. *)
Lemma toISOString_seconds (t : Date) :
  toISOString t = isoSeconds (t / 1000) +:+ "." +:+ pad 3 (t mod 1000) +:+ "Z".
Proof.
  unfold toISOString, isoSeconds, msPerDay.
  replace (t / 1000 / 86400)%Z with (t / 86400000)%Z
    by (rewrite Z.div_div by lia; reflexivity).
  assert (Hs : (t mod 86400000 / 1000 = (t / 1000) mod 86400)%Z).
  { change 86400000%Z with (1000 * 86400)%Z.
    rewrite Z.rem_mul_r by lia.
    rewrite Z.mul_comm, Z.div_add by lia.
    rewrite (Z.div_small (t mod 1000)) by (apply Z.mod_pos_bound; lia). lia. }
  assert (Hm : ((t mod 86400000) mod 1000 = t mod 1000)%Z).
  { change 86400000%Z with (1000 * 86400)%Z.
    rewrite Z.rem_mul_r by lia.
    rewrite Z.mul_comm, Z.mod_add by lia. apply Z.mod_mod. lia. }
  replace (t mod 86400000 / 3600000)%Z with ((t / 1000) mod 86400 / 3600)%Z
    by (rewrite <- Hs, Z.div_div by lia; reflexivity).
  replace (t mod 86400000 / 60000)%Z with ((t / 1000) mod 86400 / 60)%Z
    by (rewrite <- Hs, Z.div_div by lia; reflexivity).
  rewrite Hs, Hm.
  destruct (civil (t / 86400000)) as [[y m] d].
  rewrite !append_assoc. reflexivity.
Qed.

Lemma beforeDot_replaceColonT (a b : string) :
  noDot a -> beforeDot (replaceColonT (a +:+ "." +:+ b)) = replaceColonT a.
Proof.
  unfold noDot. induction a as [|x a IH]; intros Ha.
  - reflexivity.
  - rewrite append_cons. cbn in Ha. apply orb_false_iff in Ha as [Hx Ha].
    cbn [replaceColonT beforeDot]. rewrite (IH Ha).
    assert (Hne : x <> "."%char).
    { intros ->. discriminate Hx. }
    destruct x as [[] [] [] [] [] [] [] []]; try reflexivity; contradiction Hne; reflexivity.
Qed.

(** A backup is named after the second in which it is made. *)
Lemma backupFilename_seconds (t : Date) :
  backupFilename t
  = "backup_" +:+ replaceColonT (isoSeconds (t / 1000)) +:+ ".json".
Proof.
  unfold backupFilename. rewrite toISOString_seconds.
  rewrite beforeDot_replaceColonT by apply noDot_isoSeconds. reflexivity.
Qed.

Lemma backupPath_same_second (t1 t2 : Date) :
  (t1 / 1000 = t2 / 1000)%Z -> backupPath t1 = backupPath t2.
Proof.
  intros H. unfold backupPath. rewrite !backupFilename_seconds, H. reflexivity.
Qed.
End BackupName.

(** ** The menu actions *)

Section ActionFacts.
Context (P : Platform).
Import JsString JsDate.

Lemma createBackup_spec (now : Date) (v : Vault) :
  createBackup P now v
  = (Normal tt, ["Backup created: " +:+ backupFilename now],
     {| collection := collection v;
        files := <[backupPath now := JsonArray (snapshot v)]> (files v);
        storeLog := storeLog v ++ [FindSorted None SortCreatedAt Ascending] |}).
Proof. reflexivity. Qed.

Lemma backupPath_not_export (now : Date) : backupPath now <> EXPORT_FILE_PATH.
Proof. discriminate. Qed.

Lemma addRecord_blank_name (n d : string) (oid : ObjectId) (t1 t2 : Date) (v : Vault) :
  trim n = EmptyString ->
  perform P (AddRecord n d oid t1 t2) v
  = (Normal tt, ["Name is required. Aborting add operation."], v).
Proof. intros H. cbn. unfold addRecord. rewrite H. reflexivity. Qed.

(** What an add with a non-blank name does. *)
Lemma addRecord_success (n d : string) (oid : ObjectId) (t1 t2 : Date) (v : Vault) :
  truthy (trim n) = true ->
  let doc := {| _id := oid; name := trim n; details := trim d;
                createdAt := t1; updatedAt := t1 |} in
  let v1 := {| collection := collection v ++ [doc]; files := files v;
               storeLog := storeLog v ++ [InsertOne oid] |} in
  perform P (AddRecord n d oid t1 t2) v
  = (Normal tt,
     (nl +:+ "Record added successfully:") :: displayLines P 0 doc
       ++ ["Backup created: " +:+ backupFilename t2],
     {| collection := collection v1;
        files := <[backupPath t2 := JsonArray (snapshot v1)]> (files v);
        storeLog := storeLog v1 ++ [FindSorted None SortCreatedAt Ascending] |}).
Proof.
  intros Hn doc v1. subst doc v1. cbn. unfold addRecord. rewrite Hn. cbn.
  unfold Record_create. cbn. rewrite !trim_idem, Hn. reflexivity.
Qed.

Lemma files_after_search (c t : string) (v : Vault) :
  files (after P (SearchRecords c t) v) = files v
  /\ collection (after P (SearchRecords c t) v) = collection v.
Proof.
  unfold after. cbn.
  unfold searchRecords, showSearchResults, Record_find, isValidObjectId, Record_findById, bind.
  crunch.
Qed.

Lemma files_after_sort (f o : string) (v : Vault) :
  files (after P (SortRecords f o) v) = files v
  /\ collection (after P (SortRecords f o) v) = collection v.
Proof. unfold after. cbn. unfold sortRecords, bind. crunch. Qed.

Lemma files_after_list (v : Vault) :
  files (after P ListRecords v) = files v
  /\ collection (after P ListRecords v) = collection v.
Proof. unfold after. cbn. unfold listRecords, bind. crunch. Qed.

Lemma files_after_update (i n d : string) (t : Date) (v : Vault) :
  files (after P (UpdateRecord i n d t) v) = files v.
Proof.
  unfold after. cbn.
  unfold updateRecord, isValidObjectId, Record_findById, Document_save, bind.
  crunch.
Qed.

Lemma deleteRecord_success (i c : string) (t : Date) (v : Vault) (oid : ObjectId)
      (r : RecordDoc) :
  castObjectId P (trim i) = Some oid ->
  String.eqb (toLowerCase (trim c)) "y" = true ->
  List.find (hasId oid) (collection v) = Some r ->
  let v1 := {| collection := removeFirst oid (collection v); files := files v;
               storeLog := storeLog v ++ [FindByIdAndDelete oid] |} in
  perform P (DeleteRecord i c t) v
  = (Normal tt,
     ["Record deleted successfully."; "Backup created: " +:+ backupFilename t],
     {| collection := collection v1;
        files := <[backupPath t := JsonArray (snapshot v1)]> (files v);
        storeLog := storeLog v1 ++ [FindSorted None SortCreatedAt Ascending] |}).
Proof.
  intros Hc Hy Hf v1. cbn.
  unfold deleteRecord, isValidObjectId, Record_findByIdAndDelete, bind.
  rewrite Hc, Hy. cbn. rewrite Hf. reflexivity.
Qed.

Lemma deleteRecord_failure (i c : string) (t : Date) (v : Vault) :
  backupDue P (DeleteRecord i c t) v = None ->
  files (after P (DeleteRecord i c t) v) = files v
  /\ collection (after P (DeleteRecord i c t) v) = collection v.
Proof.
  unfold after, backupDue. cbn.
  unfold deleteRecord, isValidObjectId, Record_findByIdAndDelete, bind.
  destruct (castObjectId P (trim i)) as [oid|]; cbn; [|auto].
  destruct (String.eqb (toLowerCase (trim c)) "y"); cbn; [|auto].
  destruct (List.find (hasId oid) (collection v)) eqn:Hf; [discriminate|].
  intros _. cbn. split; [reflexivity|].
  clear -Hf. induction (collection v) as [|d l IH]; cbn in *; [reflexivity|].
  destruct (hasId oid d); [discriminate|]. rewrite IH by assumption. reflexivity.
Qed.

Lemma snapshot_facts (now : Date) (v v' : Vault) :
  files v' = <[backupPath now := JsonArray (snapshot v')]> (files v) ->
  files v' = <[backupPath now := JsonArray (snapshot v')]> (files v)
  /\ backupPath now
     = "backups/backup_" +:+ replaceColonT (isoSeconds (now / 1000)) +:+ ".json"
  /\ Permutation (snapshot v') (collection v')
  /\ inCreationOrder (snapshot v')
  /\ (files v !! backupPath now = None -> size (files v') = S (size (files v)))
  /\ (is_Some (files v !! backupPath now) -> size (files v') = size (files v)).
Proof.
  intros H. split; [exact H|].
  split; [unfold backupPath; rewrite backupFilename_seconds; reflexivity|].
  split; [apply snapshot_perm|].
  split; [apply snapshot_sorted|]. rewrite H. split.
  - intros Hn. apply map_size_insert_None, Hn.
  - intros Hs. apply map_size_insert_Some, Hs.
Qed.

(** What the actions do to the files.  An add whose name is not blank,
    and a delete that is confirmed and finds its record, write exactly one
    file, [backups/backup_<UTC date and time of the second>.json], holding
    the whole collection as it is after the action, ordered by creation
    date; the file is new when no backup carries that name yet and
    replaces the backup of that name otherwise.  No other action touches
    any file but the export. *)
Lemma backup_after_add_and_delete (a : Action) (v : Vault) :
  match backupDue P a v with
  | Some now =>
      files (after P a v)
      = <[backupPath now := JsonArray (snapshot (after P a v))]> (files v)
      /\ backupPath now
         = "backups/backup_" +:+ replaceColonT (isoSeconds (now / 1000)) +:+ ".json"
      /\ Permutation (snapshot (after P a v)) (collection (after P a v))
      /\ inCreationOrder (snapshot (after P a v))
      /\ (files v !! backupPath now = None ->
          size (files (after P a v)) = S (size (files v)))
      /\ (is_Some (files v !! backupPath now) ->
          size (files (after P a v)) = size (files v))
  | None =>
      forall path, path <> EXPORT_FILE_PATH ->
        files (after P a v) !! path = files v !! path
  end.
Proof.
  destruct a as [n d oid t1 t2 | i n d t | i c t | | c t | f o | t | ].
  - cbn [backupDue]. destruct (truthy (trim n)) eqn:Hn.
    + apply snapshot_facts. unfold after.
      rewrite (addRecord_success n d oid t1 t2 v Hn). reflexivity.
    + intros path _. unfold after. apply truthy_false_iff in Hn.
      rewrite (addRecord_blank_name n d oid t1 t2 v Hn). reflexivity.
  - cbn [backupDue]. intros path _. rewrite files_after_update. reflexivity.
  - destruct (backupDue P (DeleteRecord i c t) v) as [now|] eqn:Hdue.
    + cbn in Hdue.
      destruct (castObjectId P (trim i)) as [oid|] eqn:Hc; [|discriminate].
      destruct (String.eqb (toLowerCase (trim c)) "y") eqn:Hy; [|discriminate].
      destruct (List.find (hasId oid) (collection v)) as [r|] eqn:Hf; [|discriminate].
      injection Hdue as <-.
      apply snapshot_facts. unfold after.
      rewrite (deleteRecord_success i c t v oid r Hc Hy Hf). reflexivity.
    + intros path _. destruct (deleteRecord_failure i c t v Hdue) as [-> _]. reflexivity.
  - intros path _. destruct (files_after_list v) as [-> _]. reflexivity.
  - intros path _. destruct (files_after_search c t v) as [-> _]. reflexivity.
  - intros path _. destruct (files_after_sort f o v) as [-> _]. reflexivity.
  - intros path Hp. unfold after. cbn. rewrite lookup_insert_ne; [reflexivity|].
    intros E. apply Hp. symmetry. exact E.
  - intros path _. reflexivity.
Qed.
End ActionFacts.

Section ClaimFacts.
Context (P : Platform).
Import JsString JsDate.

Lemma find_hasId oid l r : List.find (hasId oid) l = Some r -> In r l /\ _id r = oid.
Proof.
  intros H. apply find_some in H as [Hin Hid]. split; [exact Hin|].
  apply String.eqb_eq, Hid.
Qed.

Lemma replaceFirst_same oid l r :
  List.find (hasId oid) l = Some r -> replaceFirst oid r l = l.
Proof.
  induction l as [|d l IH]; cbn; [discriminate|].
  destruct (hasId oid d); [intros [= ->]; reflexivity|].
  intros H. rewrite IH by exact H. reflexivity.
Qed.

(** The record found under an identifier is the first that carries it,
    and replacing under that identifier puts the new record in its
    place. *)
Lemma replaceFirst_place oid l r :
  List.find (hasId oid) l = Some r ->
  exists before rest,
    l = before ++ r :: rest
    /\ (forall x, In x before -> _id x <> oid)
    /\ forall new, replaceFirst oid new l = before ++ new :: rest.
Proof.
  induction l as [|d l IH]; cbn; [discriminate|].
  destruct (hasId oid d) eqn:E.
  - intros [= ->]. exists [], l. split; [reflexivity|]. split; [intros x []|].
    reflexivity.
  - intros Hf. destruct (IH Hf) as (before & rest & -> & Hbefore & Hrep).
    exists (d :: before), rest. split; [reflexivity|]. split.
    + intros x [<-|Hx]; [apply String.eqb_neq, E | apply Hbefore, Hx].
    + intros new. rewrite Hrep. reflexivity.
Qed.

Lemma replaceFirst_Forall (Q : RecordDoc -> Prop) oid new l :
  Forall Q l -> Q new -> Forall Q (replaceFirst oid new l).
Proof.
  intros Hl Hnew. induction Hl as [|d l Hd Hl IH]; cbn; [constructor|].
  destruct (hasId oid d); constructor; assumption.
Qed.

Lemma removeFirst_Forall (Q : RecordDoc -> Prop) oid l :
  Forall Q l -> Forall Q (removeFirst oid l).
Proof.
  intros Hl. induction Hl as [|d l Hd Hl IH]; cbn; [constructor|].
  destruct (hasId oid d); [assumption | constructor; assumption].
Qed.

Lemma edited_unchanged n d r :
  String.eqb (name (edited n d r)) (name r)
  && String.eqb (details (edited n d r)) (details r) = true ->
  edited n d r = r.
Proof.
  intros H. apply andb_true_iff in H as [Hn Hd].
  apply String.eqb_eq in Hn, Hd.
  destruct r as [i0 n0 d0 c0 u0]. unfold edited, setName, setDetails in *.
  destruct (truthy (trim n)), (truthy (trim d)); cbn in *; congruence.
Qed.

Lemma updateRecord_found (i n d : string) (t : Date) (v : Vault) oid r :
  castObjectId P (trim i) = Some oid ->
  List.find (hasId oid) (collection v) = Some r ->
  fst (perform P (UpdateRecord i n d t) v)
  = (Normal tt, (nl +:+ "Record updated successfully:")
                  :: displayLines P 0 (savedRecord n d t r))
  /\ collection (after P (UpdateRecord i n d t) v)
     = replaceFirst oid (savedRecord n d t r) (collection v).
Proof.
  intros Hc Hf. unfold after. cbn.
  unfold updateRecord, isValidObjectId, Record_findById, bind. rewrite Hc. cbn.
  rewrite Hf. cbn. fold (edited n d r).
  unfold Document_save, savedRecord, bind.
  destruct (String.eqb (name (edited n d r)) (name r)
            && String.eqb (details (edited n d r)) (details r)) eqn:E; cbn.
  - split; [reflexivity|]. rewrite (edited_unchanged _ _ _ E).
    symmetry. apply replaceFirst_same, Hf.
  - destruct (find_hasId _ _ _ Hf) as [_ ->]. split; reflexivity.
Qed.

Lemma updateRecord_missing (i n d : string) (t : Date) (v : Vault) oid :
  castObjectId P (trim i) = Some oid ->
  List.find (hasId oid) (collection v) = None ->
  perform P (UpdateRecord i n d t) v
  = (Normal tt, ["Record not found."], logged [FindById oid] v).
Proof.
  intros Hc Hf. cbn.
  unfold updateRecord, isValidObjectId, Record_findById, bind. rewrite Hc. cbn.
  rewrite Hf. reflexivity.
Qed.

Lemma updateRecord_malformed (i n d : string) (t : Date) (v : Vault) :
  isValidObjectId P (trim i) = false ->
  perform P (UpdateRecord i n d t) v = (Normal tt, ["Invalid ID format."], v).
Proof. intros H. cbn. unfold updateRecord. rewrite H. reflexivity. Qed.

Lemma savedRecord_fields n d t r :
  let r' := savedRecord n d t r in
  name r' = (if truthy (trim n) then trim n else name r)
  /\ details r' = (if truthy (trim d) then trim d else details r)
  /\ createdAt r' = createdAt r
  /\ _id r' = _id r
  /\ (updatedAt r' = updatedAt r \/ updatedAt r' = t).
Proof.
  unfold savedRecord, edited, setName, setDetails.
  destruct (truthy (trim n)), (truthy (trim d)); cbn;
    case_scrutinee; cbn; auto 10.
Qed.

Lemma savedRecord_changed n d t r :
  edited n d r <> r -> updatedAt (savedRecord n d t r) = t.
Proof.
  intros Hchanged. unfold savedRecord.
  destruct (String.eqb (name (edited n d r)) (name r)
            && String.eqb (details (edited n d r)) (details r)) eqn:E; [|reflexivity].
  contradiction Hchanged. apply edited_unchanged, E.
Qed.

Lemma savedRecord_unchanged n d t r :
  edited n d r = r -> savedRecord n d t r = r.
Proof.
  intros E. unfold savedRecord. rewrite E, !String.eqb_refl. reflexivity.
Qed.

Lemma savedRecord_valid n d t r :
  validRecord r -> (edited n d r <> r -> (createdAt r <= t)%Z) ->
  validRecord (savedRecord n d t r).
Proof.
  intros Hr Ht.
  destruct (String.eqb (name (edited n d r)) (name r)
            && String.eqb (details (edited n d r)) (details r)) eqn:E.
  - rewrite savedRecord_unchanged by (apply edited_unchanged, E). exact Hr.
  - assert (Hchanged : edited n d r <> r).
    { intros Eq. rewrite Eq, !String.eqb_refl in E. discriminate E. }
    destruct Hr as [Hname Hdates].
    destruct (savedRecord_fields n d t r) as (Hn & _ & Hc & _ & _).
    unfold validRecord. rewrite Hn, Hc, (savedRecord_changed n d t r Hchanged). split.
    + destruct (truthy (trim n)) eqn:En; [|exact Hname].
      rewrite trim_idem. apply truthy_true_iff, En.
    + apply Ht, Hchanged.
Qed.
End ClaimFacts.

Section InvariantFacts.
Context (P : Platform).
Import JsString JsDate.

(** How an action changes the collection: not at all, by one record at
    the end, by one record edited in place, or by one record removed. *)
Lemma collection_after (a : Action) (v : Vault) :
  collection (after P a v) = collection v
  \/ (exists n d oid t1 t2,
        a = AddRecord n d oid t1 t2 /\ truthy (trim n) = true
        /\ collection (after P a v)
           = collection v ++ [{| _id := oid; name := trim n; details := trim d;
                                 createdAt := t1; updatedAt := t1 |}])
  \/ (exists i n d t oid r,
        a = UpdateRecord i n d t
        /\ castObjectId P (trim i) = Some oid
        /\ List.find (hasId oid) (collection v) = Some r
        /\ collection (after P a v)
           = replaceFirst oid (savedRecord n d t r) (collection v))
  \/ (exists i c t oid,
        a = DeleteRecord i c t
        /\ collection (after P a v) = removeFirst oid (collection v)).
Proof.
  destruct a as [n d oid t1 t2 | i n d t | i c t | | c t | f o | t | ].
  - destruct (truthy (trim n)) eqn:Hn.
    + right. left. exists n, d, oid, t1, t2. split; [reflexivity|].
      split; [exact Hn|]. unfold after.
      rewrite (addRecord_success P n d oid t1 t2 v Hn). reflexivity.
    + left. apply truthy_false_iff in Hn. unfold after.
      rewrite (addRecord_blank_name P n d oid t1 t2 v Hn). reflexivity.
  - destruct (castObjectId P (trim i)) as [oid|] eqn:Hc.
    + destruct (List.find (hasId oid) (collection v)) as [r|] eqn:Hf.
      * right. right. left. exists i, n, d, t, oid, r.
        split; [reflexivity|]. split; [exact Hc|]. split; [exact Hf|].
        apply (updateRecord_found P i n d t v oid r Hc Hf).
      * left. unfold after. rewrite (updateRecord_missing P i n d t v oid Hc Hf).
        reflexivity.
    + left. unfold after. rewrite (updateRecord_malformed P i n d t v); [reflexivity|].
      unfold isValidObjectId. rewrite Hc. reflexivity.
  - destruct (backupDue P (DeleteRecord i c t) v) as [now|] eqn:Hdue.
    + cbn in Hdue.
      destruct (castObjectId P (trim i)) as [oid|] eqn:Hc; [|discriminate].
      destruct (String.eqb (toLowerCase (trim c)) "y") eqn:Hy; [|discriminate].
      destruct (List.find (hasId oid) (collection v)) as [r|] eqn:Hf; [|discriminate].
      right. right. right. exists i, c, t, oid. split; [reflexivity|].
      unfold after. rewrite (deleteRecord_success P i c t v oid r Hc Hy Hf). reflexivity.
    + left. apply (deleteRecord_failure P i c t v Hdue).
  - left. apply files_after_list.
  - left. apply files_after_search.
  - left. apply files_after_sort.
  - left. reflexivity.
  - left. reflexivity.
Qed.


(** The dates stay in order when no update is saved with a clock reading
    before the creation date of its record. *)
Lemma validity_kept_by_save (a : Action) (v : Vault) :
  Forall validRecord (collection v) -> savedAfterCreation P a v ->
  Forall validRecord (collection (after P a v)).
Proof.
  intros Hvalid Hsave.
  destruct (collection_after a v)
    as [-> | [(n & d & oid & t1 & t2 & -> & Hn & ->)
           | [(i & n & d & t & oid & r & -> & Hcast & Hf & ->)
             | (i & c & t & oid & -> & ->)]]].
  - exact Hvalid.
  - apply Forall_app. split; [exact Hvalid|]. constructor; [|constructor].
    split; [|cbn; lia]. change (trim (trim n) <> EmptyString).
    rewrite trim_idem. apply truthy_true_iff, Hn.
  - destruct (find_hasId _ _ _ Hf) as [Hin _].
    apply replaceFirst_Forall; [exact Hvalid|]. apply savedRecord_valid.
    + rewrite Forall_forall in Hvalid. apply Hvalid, list_elem_of_In, Hin.
    + exact (Hsave oid r Hcast Hf).
  - apply removeFirst_Forall, Hvalid.
Qed.


Lemma clockAhead_save (a : Action) (v : Vault) :
  clockAhead a v -> savedAfterCreation P a v.
Proof.
  intros Hclock. destruct a as [| i n d t | | | | | |]; try exact I.
  intros oid r _ Hf _. destruct (find_hasId _ _ _ Hf) as [Hin _].
  apply (Hclock t r); [left; reflexivity | exact Hin].
Qed.

Lemma validity_kept (a : Action) (v : Vault) :
  Forall validRecord (collection v) -> clockAhead a v ->
  Forall validRecord (collection (after P a v)).
Proof.
  intros Hvalid Hclock. apply validity_kept_by_save; [exact Hvalid|].
  apply clockAhead_save, Hclock.
Qed.

Lemma inCreationOrder_snoc (l : list RecordDoc) (x : RecordDoc) :
  inCreationOrder l ->
  (forall d, In d l -> (createdAt d <= createdAt x)%Z) ->
  inCreationOrder (l ++ [x]).
Proof.
  unfold inCreationOrder. intros Hl Hx.
  induction Hl as [|d l Hs IH Hd]; cbn; [repeat constructor|].
  constructor.
  - apply IH. intros e He. apply Hx. right. exact He.
  - apply Forall_app. split; [exact Hd|]. constructor; [|constructor].
    apply Hx. left. reflexivity.
Qed.

Lemma inCreationOrder_replaceFirst (oid : ObjectId) (new r : RecordDoc)
      (l : list RecordDoc) :
  inCreationOrder l ->
  List.find (hasId oid) l = Some r -> createdAt new = createdAt r ->
  inCreationOrder (replaceFirst oid new l)
  /\ forall z, In z (replaceFirst oid new l) ->
       exists y, In y l /\ createdAt z = createdAt y.
Proof.
  unfold inCreationOrder. intros Hl. revert r.
  induction Hl as [|d l Hs IH Hd]; intros r Hf Hnew; cbn in *; [discriminate|].
  destruct (hasId oid d) eqn:Hid.
  - injection Hf as ->. split.
    + constructor; [exact Hs|]. rewrite Hnew. exact Hd.
    + intros z [<-|Hz]; eauto.
  - destruct (IH r Hf Hnew) as [IH1 IH2]. split.
    + constructor; [exact IH1|]. apply Forall_forall. intros z Hz.
      apply list_elem_of_In in Hz. destruct (IH2 z Hz) as (y & Hy & ->).
      rewrite Forall_forall in Hd. apply Hd, list_elem_of_In, Hy.
    + intros z [<-|Hz]; [eauto|]. destruct (IH2 z Hz) as (y & Hy & E). eauto.
Qed.

Lemma removeFirst_incl (oid : ObjectId) (l : list RecordDoc) (z : RecordDoc) :
  In z (removeFirst oid l) -> In z l.
Proof.
  induction l as [|d l IH]; cbn; [trivial|].
  destruct (hasId oid d); [auto|]. intros [<-|Hz]; auto.
Qed.

Lemma inCreationOrder_removeFirst (oid : ObjectId) (l : list RecordDoc) :
  inCreationOrder l -> inCreationOrder (removeFirst oid l).
Proof.
  unfold inCreationOrder. induction 1 as [|d l Hs IH Hd]; cbn; [constructor|].
  destruct (hasId oid d); [exact Hs|]. constructor; [exact IH|].
  apply Forall_forall. intros z Hz. apply list_elem_of_In, removeFirst_incl in Hz.
  rewrite Forall_forall in Hd. apply Hd, list_elem_of_In, Hz.
Qed.

Lemma creation_order_kept (a : Action) (v : Vault) :
  inCreationOrder (collection v) -> clockAhead a v ->
  inCreationOrder (collection (after P a v)).
Proof.
  intros Horder Hclock.
  destruct (collection_after a v)
    as [-> | [(n & d & oid & t1 & t2 & -> & Hn & ->)
           | [(i & n & d & t & oid & r & -> & Hcast & Hf & ->)
             | (i & c & t & oid & -> & ->)]]].
  - exact Horder.
  - apply inCreationOrder_snoc; [exact Horder|]. intros e He. cbn.
    apply (Hclock t1 e); [left; reflexivity | exact He].
  - apply (inCreationOrder_replaceFirst oid _ r); [exact Horder | exact Hf|].
    apply savedRecord_fields.
  - apply inCreationOrder_removeFirst, Horder.
Qed.

(** Every vault the loop reaches holds valid records in creation
    order. *)
Lemma reachable_invariants (v : Vault) :
  Reachable P v -> Forall validRecord (collection v) /\ inCreationOrder (collection v).
Proof.
  induction 1 as [|a v Hr [IHv IHo] Hclock].
  - split; constructor.
  - split; [apply validity_kept | apply creation_order_kept]; assumption.
Qed.
End InvariantFacts.

Section Claims.
Context (P : Platform).
Import JsString JsDate.


(** C5 (amended).  For an identifier that resolves to a stored record,
    an update sets the name and the details to the inputs that are not
    blank and leaves the others, and keeps the creation date and the
    identifier.  The modification date becomes the clock reading of the
    save when the name or the details changed, and stays as it was when
    neither changed; so it is not before the old one when the clock
    reading is not before the old one.  The record shown takes the place
    of the old one in the collection, no other record and no file
    changes, and with a name input X the shown name is X.  For a
    well-formed identifier with no record the update reports "Record not
    found." and changes nothing. *)
Theorem update_applies_nonblank_inputs (i n d : string) (t : Date) (v : Vault)
        (oid : ObjectId) :
  castObjectId P (trim i) = Some oid ->
  match List.find (hasId oid) (collection v) with
  | None =>
      perform P (UpdateRecord i n d t) v
      = (Normal tt, ["Record not found."], logged [FindById oid] v)
  | Some r =>
      exists r' before rest,
        fst (perform P (UpdateRecord i n d t) v)
        = (Normal tt, (nl +:+ "Record updated successfully:") :: displayLines P 0 r')
        /\ collection v = before ++ r :: rest
        /\ (forall x, In x before -> _id x <> oid)
        /\ collection (after P (UpdateRecord i n d t) v) = before ++ r' :: rest
        /\ files (after P (UpdateRecord i n d t) v) = files v
        /\ name r' = (if truthy (trim n) then trim n else name r)
        /\ details r' = (if truthy (trim d) then trim d else details r)
        /\ createdAt r' = createdAt r
        /\ _id r' = _id r
        /\ (name r' = name r /\ details r' = details r -> updatedAt r' = updatedAt r)
        /\ (name r' <> name r \/ details r' <> details r -> updatedAt r' = t)
        /\ ((updatedAt r <= t)%Z -> (updatedAt r <= updatedAt r')%Z)
        /\ (n = "X" -> name r' = "X")
  end.
Proof.
  intros Hc. destruct (List.find (hasId oid) (collection v)) as [r|] eqn:Hf.
  - destruct (updateRecord_found P i n d t v oid r Hc Hf) as [Hout Hcol].
    destruct (savedRecord_fields n d t r) as (Hn & Hd & Hcr & Hid & Hu).
    destruct (replaceFirst_place oid _ r Hf) as (before & rest & El & Hbefore & Hrep).
    exists (savedRecord n d t r), before, rest.
    split; [exact Hout|]. split; [exact El|]. split; [exact Hbefore|].
    split; [rewrite Hcol; apply Hrep|]. split; [apply files_after_update|].
    split; [exact Hn|]. split; [exact Hd|]. split; [exact Hcr|]. split; [exact Hid|].
    split; [|split; [|split]].
    + intros [En Ed]. unfold savedRecord in *.
      destruct (String.eqb (name (edited n d r)) (name r)
                && String.eqb (details (edited n d r)) (details r)) eqn:E.
      * rewrite (edited_unchanged _ _ _ E). reflexivity.
      * cbn in En, Ed. rewrite En, Ed, !String.eqb_refl in E. discriminate E.
    + intros Hchanged. unfold savedRecord in *.
      destruct (String.eqb (name (edited n d r)) (name r)
                && String.eqb (details (edited n d r)) (details r)) eqn:E;
        [|reflexivity].
      rewrite (edited_unchanged _ _ _ E) in Hchanged. destruct Hchanged; congruence.
    + intros Ht. destruct Hu as [-> | ->]; lia.
    + intros ->. rewrite Hn. reflexivity.
  - apply updateRecord_missing; assumption.
Qed.

(** C6.  A name input that trims to the empty string makes the add
    print "Name is required. Aborting add operation." and leave the
    vault as it was: no record, no store call, no file. *)
Theorem blank_name_is_rejected (n d : string) (oid : ObjectId) (t1 t2 : Date)
        (v : Vault) :
  trim n = EmptyString ->
  perform P (AddRecord n d oid t1 t2) v
  = (Normal tt, ["Name is required. Aborting add operation."], v).
Proof. apply addRecord_blank_name. Qed.

(** C7 (amended).  When the identifier typed is not one the store
    accepts, update and delete print "Invalid ID format." and search by
    ID prints "Invalid ID format." for an identifier that is not blank
    and "ID is required." for a blank one; in each case nothing is sent
    to the store and the vault is unchanged.  The message differs from
    the one for a missing record. *)
Theorem malformed_id_is_rejected (i n d c choice : string) (t : Date) (v : Vault) :
  isValidObjectId P (trim i) = false ->
  trim choice = "2" ->
  perform P (UpdateRecord i n d t) v = (Normal tt, ["Invalid ID format."], v)
  /\ perform P (DeleteRecord i c t) v = (Normal tt, ["Invalid ID format."], v)
  /\ perform P (SearchRecords choice i) v
     = (Normal tt,
        [searchMenu; if truthy (trim i) then "Invalid ID format." else "ID is required."],
        v)
  /\ "Invalid ID format." <> "Record not found.".
Proof.
  intros Hbad Hchoice. split; [apply updateRecord_malformed, Hbad|].
  split; [cbn; unfold deleteRecord; rewrite Hbad; reflexivity|].
  split; [|discriminate].
  cbn. unfold searchRecords, bind. rewrite Hchoice, Hbad. cbn.
  destruct (truthy (trim i)); reflexivity.
Qed.

(** C9.  On an empty collection the statistics return normally and
    print a count of 0 and "N/A" for the last modification, the longest
    name, and the earliest and latest record dates. *)
Theorem statistics_of_empty_vault (v : Vault) :
  collection v = [] ->
  perform P ViewStatistics v
  = (Normal tt,
     [ nl +:+ "==== Vault Statistics ====";
       "Total Records: 0";
       "Last Modification: N/A";
       "Longest Name: N/A (0 characters)";
       "Earliest Record Date: N/A";
       "Latest Record Date: N/A" ],
     logged [ CountDocuments; FindOneSorted SortUpdatedAt Descending;
              FindOneSorted SortCreatedAt Ascending;
              FindOneSorted SortCreatedAt Descending; Aggregate ] v).
Proof.
  intros H. cbn. unfold viewVaultStatistics, bind. cbn. rewrite H. cbn.
  unfold logged. rewrite H. repeat rewrite <- app_assoc. reflexivity.
Qed.

(** C10.  When the confirmation typed is not y (in either case, blanks
    around it aside), a delete leaves the vault as it was, whatever the
    identifier: no record removed, nothing sent to the store, no file
    written. *)
Theorem unconfirmed_delete_changes_nothing (i c : string) (t : Date) (v : Vault) :
  toLowerCase (trim c) <> "y" ->
  perform P (DeleteRecord i c t) v
  = (Normal tt,
     [if isValidObjectId P (trim i) then "Delete operation cancelled."
      else "Invalid ID format."],
     v).
Proof.
  intros H. cbn. unfold deleteRecord.
  destruct (isValidObjectId P (trim i)); cbn; [|reflexivity].
  destruct (String.eqb_spec (toLowerCase (trim c)) "y") as [E|E]; [contradiction|].
  reflexivity.
Qed.
End Claims.

(** ** Export *)

Lemma concat_imap_block {A B} (f : nat -> A -> list B) (w : nat) (l : list A)
      (k : nat) (x : A) :
  (forall i y, length (f i y) = w) ->
  l !! k = Some x ->
  take w (drop (w * k) (concat (imap f l))) = f k x.
Proof.
  intros Hw. revert f k Hw.
  induction l as [|y l IH]; intros f k Hw Hk; [discriminate|].
  rewrite imap_cons. cbn [concat]. destruct k as [|k]; cbn in Hk.
  - injection Hk as ->. rewrite Nat.mul_0_r. cbn [drop].
    apply take_app_length'. symmetry. apply Hw.
  - replace (w * S k) with (length (f 0 y) + w * k) by (rewrite Hw; lia).
    rewrite drop_app_add.
    apply (IH (f ∘ S) k); [|exact Hk]. intros i z. apply Hw.
Qed.

Lemma length_concat_imap {A B} (f : nat -> A -> list B) (w : nat) (l : list A) :
  (forall i y, length (f i y) = w) ->
  length (concat (imap f l)) = w * length l.
Proof.
  intros Hw. revert f Hw. induction l as [|y l IH]; intros f Hw; cbn; [lia|].
  rewrite length_app, Hw, (IH (f ∘ S)); [lia|]. intros i z. apply Hw.
Qed.

Section ExportFacts.
Context (P : Platform).
Import JsString JsDate.

Lemma exportData_spec (t : Date) (v : Vault) :
  perform P (ExportData t) v
  = (Normal tt, ["Data exported successfully to export.txt."],
     {| collection := collection v;
        files := <[EXPORT_FILE_PATH := Utf8Text (exportText P t (snapshot v))]> (files v);
        storeLog := storeLog v ++ [FindSorted None SortCreatedAt Ascending] |}).
Proof. reflexivity. Qed.

(** The seven lines of a record, joined to what follows them, are the
    six lines of its entry and, when more follows, an empty line. *)
Lemma join_exportBlock (k : nat) (r : RecordDoc) (more : list string) :
  join nl (exportBlock P k r ++ more)
  = reportEntry P (k + 1) r
      +:+ match more with
          | [] => EmptyString
          | _ :: _ => lineFeed +:+ join nl more
          end.
Proof.
  unfold exportBlock, reportEntry, reportLine, orElse, truthy.
  change nl with lineFeed. cbn [app formatDate].
  destruct more as [|line more]; cbn [join];
    destruct (details r); cbn [isEmpty negb];
    rewrite ?append_empty, ?append_nil, !append_assoc; reflexivity.
Qed.

Lemma join_exportBlocks (base : nat) (records : list RecordDoc) :
  join nl (concat (imap (fun index => exportBlock P (base + index)) records))
  = reportListing P (base + 1) records.
Proof.
  revert base. induction records as [|r rest IH]; intros base; [reflexivity|].
  rewrite imap_cons. cbn [concat].
  rewrite (imap_ext _ (fun index => exportBlock P (S base + index)))
    by (intros index x _; cbn; rewrite Nat.add_succ_r; reflexivity).
  rewrite join_exportBlock, Nat.add_0_r. cbn [reportListing].
  destruct rest as [|r2 rest]; [apply append_empty|].
  transitivity
    (reportEntry P (base + 1) r +:+ lineFeed
       +:+ join nl (concat (imap (fun index => exportBlock P (S base + index))
                              (r2 :: rest)))); [reflexivity|].
  rewrite (IH (S base)). reflexivity.
Qed.

(** The text that [exportData] joins from its lines is the report. *)
Lemma exportText_report (now : Date) (records : list RecordDoc) :
  exportText P now records = reportText P now records.
Proof.
  unfold exportText, reportText, reportLine, exportHeader.
  change (imap (exportBlock P) records)
    with (imap (fun index => exportBlock P (0 + index)) records).
  rewrite join_exportBlocks. change nl with lineFeed. cbn [join formatDate].
  rewrite !append_assoc. reflexivity.
Qed.

(** C8.  An export writes the one file [export.txt] and nothing else,
    replacing an earlier export: after two exports the files are those
    that the second export alone leaves.  The text is the report: a header
    of the export time, the number of records, the file name and a rule,
    then an empty line, then for each record, in creation order and
    numbered from 1, six lines (number, identifier, name, details,
    creation and modification dates), with an empty line between two
    records.  The source joins it from seven lines a record, the seventh
    being empty. *)
Theorem export_replaces_the_one_report (t0 t : Date) (v : Vault) :
  let listing := snapshot v in
  let body := concat (imap (exportBlock P) listing) in
  files (after P (ExportData t) v)
  = <[EXPORT_FILE_PATH := Utf8Text (reportText P t listing)]> (files v)
  /\ collection (after P (ExportData t) v) = collection v
  /\ files (after P (ExportData t) (after P (ExportData t0) v))
     = files (after P (ExportData t) v)
  /\ size (files (after P (ExportData t) (after P (ExportData t0) v)))
     = size (files (after P (ExportData t0) v))
  /\ exportText P t listing = reportText P t listing
  /\ Permutation listing (collection v)
  /\ inCreationOrder listing
  /\ length listing = length (collection v)
  /\ length body = 7 * length (collection v)
  /\ (forall k r, listing !! k = Some r ->
        take 7 (drop (7 * k) body) = exportEntry P k r).
Proof.
  intros listing body. unfold after. rewrite !exportData_spec. cbn [snd files collection].
  split; [fold listing; rewrite exportText_report; reflexivity|]. split; [reflexivity|].
  split; [apply insert_insert_eq|].
  split.
  { apply map_size_insert_Some. rewrite lookup_insert_eq. eauto. }
  split; [apply exportText_report|].
  split; [apply snapshot_perm|]. split; [apply snapshot_sorted|].
  split; [apply sortBy_length|].
  split.
  { subst body listing. rewrite (length_concat_imap _ 7); [|reflexivity].
    unfold snapshot. rewrite sortBy_length. reflexivity. }
  intros k r Hk. subst body.
  rewrite (concat_imap_block _ 7 _ k r); [reflexivity | reflexivity | exact Hk].
Qed.
End ExportFacts.

(** ** Statistics *)

Section StatisticsFacts.
Context (P : Platform).
Import JsString JsDate.

(** The first document that the [$sort] stage delivers is the projection
    of a stored record, and no stored name is longer than its name,
    whatever the stage does with equal lengths. *)
Lemma longest_is_first (keeps : Projected -> Projected -> bool) (l : list RecordDoc) :
  l <> [] ->
  exists r,
    In r l
    /\ head (take 1 (sortStage byLengthDescending keeps (map project l)))
       = Some (project r)
    /\ (forall r', In r' l -> String.length (name r') <= String.length (name r)).
Proof.
  intros Hne.
  pose proof (sortStage_perm byLengthDescending keeps (map project l)) as Hperm.
  assert (Hsorted : StronglySorted (fun a b => byLengthDescending a b = true)
                      (sortStage byLengthDescending keeps (map project l))).
  { apply sortStage_sorted.
    - intros a b. unfold byLengthDescending. rewrite !Nat.leb_le. lia.
    - intros a b c. unfold byLengthDescending. rewrite !Nat.leb_le. lia. }
  destruct (sortStage byLengthDescending keeps (map project l)) as [|p s] eqn:Es.
  - apply Permutation_nil in Hperm. destruct l; [congruence | discriminate].
  - assert (Hp : In p (map project l))
      by (apply (Permutation_in _ Hperm); left; reflexivity).
    apply in_map_iff in Hp as (r & <- & Hr).
    exists r. split; [exact Hr|]. split; [reflexivity|].
    intros r' Hr'.
    assert (Hin : In (project r') (project r :: s))
      by (apply (Permutation_in _ (Permutation_sym Hperm)), in_map, Hr').
    destruct Hin as [E|Hin].
    + apply (f_equal p_length) in E. cbn in E. lia.
    + apply StronglySorted_inv in Hsorted as [_ Hall].
      rewrite Forall_forall in Hall. specialize (Hall _ (proj2 (list_elem_of_In _ _) Hin)).
      unfold byLengthDescending in Hall. apply Nat.leb_le in Hall. exact Hall.
Qed.

Lemma viewVaultStatistics_lines (v : Vault) :
  printed P ViewStatistics v
  = let top := head (take 1 (sortStage byLengthDescending (tieKeepsScanOrder P)
                               (map project (collection v)))) in
    [ nl +:+ "==== Vault Statistics ====";
      "Total Records: " +:+ pretty (length (collection v));
      "Last Modification: " +:+
        formatDate P (option_map updatedAt
                        (head (sortBy (leSpec SortUpdatedAt Descending) (collection v))));
      "Longest Name: "
        +:+ orElse (match top with Some p => p_name p | None => EmptyString end) "N/A"
        +:+ " (" +:+ pretty (match top with Some p => p_length p | None => 0 end)
        +:+ " characters)";
      "Earliest Record Date: " +:+
        formatDate P (option_map createdAt
                        (head (sortBy (leSpec SortCreatedAt Ascending) (collection v))));
      "Latest Record Date: " +:+
        formatDate P (option_map createdAt
                        (head (sortBy (leSpec SortCreatedAt Descending) (collection v)))) ].
Proof. reflexivity. Qed.

(** C4 (amended).  On every vault that is not empty, and whatever the
    server does with names of equal length, the statistics name a stored
    record whose name has the greatest length, and print that length (a
    name that is empty prints as N/A). *)
Theorem statistics_name_a_longest (v : Vault) :
  collection v <> [] ->
  exists r,
    In r (collection v)
    /\ printed P ViewStatistics v !! 3
       = Some ("Longest Name: " +:+ orElse (name r) "N/A" +:+ " ("
                 +:+ pretty (String.length (name r)) +:+ " characters)")
    /\ (forall r', In r' (collection v) ->
          String.length (name r') <= String.length (name r)).
Proof.
  intros Hne.
  destruct (longest_is_first (tieKeepsScanOrder P) (collection v) Hne)
    as (r & Hin & Hhead & Hmax).
  exists r. split; [exact Hin|]. split; [|exact Hmax].
  rewrite viewVaultStatistics_lines. cbv zeta. rewrite Hhead. reflexivity.
Qed.
End StatisticsFacts.

(** ** Search by name *)

Section SearchFacts.
Import JsString Regex.

Lemma toLowerCase_app (a b : string) :
  toLowerCase (a +:+ b) = toLowerCase a +:+ toLowerCase b.
Proof.
  induction a as [|x a IH]; [reflexivity|].
  rewrite append_cons. cbn. rewrite IH. reflexivity.
Qed.

Lemma toLowerCase_split (s a b : string) :
  toLowerCase s = a +:+ b ->
  exists s1 s2, s = s1 +:+ s2 /\ toLowerCase s1 = a /\ toLowerCase s2 = b.
Proof.
  revert s. induction a as [|x a IH]; intros s H.
  - exists EmptyString, s. auto.
  - destruct s as [|y s]; [discriminate|].
    rewrite append_cons in H. cbn in H. injection H as Hx Hs.
    destruct (IH s Hs) as (s1 & s2 & -> & H1 & H2).
    exists (String y s1), s2. rewrite append_cons. cbn. rewrite Hx, H1. auto.
Qed.

Lemma compile_plain (t : string) : isPlain t = true -> compile t = Some (literals t).
Proof.
  induction t as [|c t IH]; cbn; [reflexivity|].
  intros H. apply andb_true_iff in H as [Hc Ht]. rewrite (IH Ht).
  apply negb_true_iff in Hc. rewrite Hc.
  destruct (Ascii.eqb_spec c "."%char) as [->|_]; [discriminate Hc | reflexivity].
Qed.

Lemma matchHere_literals (t s : string) :
  matchHere (literals t) s = true
  <-> exists rest, toLowerCase s = toLowerCase t +:+ rest.
Proof.
  revert s. induction t as [|c t IH]; intros s; cbn [literals toLowerCase matchHere].
  - split; [|reflexivity]. intros _. exists (toLowerCase s). reflexivity.
  - destruct s as [|d s]; cbn [toLowerCase matchAtom].
    + split; [discriminate | intros [rest H]; discriminate].
    + rewrite andb_true_iff, IH. split.
      * intros [Hc [rest Hr]]. exists rest. apply Ascii.eqb_eq in Hc.
        rewrite append_cons, Hc, Hr. reflexivity.
      * intros [rest H]. rewrite append_cons in H. injection H as Hc Hr.
        split; [|eauto]. apply Ascii.eqb_eq. congruence.
Qed.

Lemma search_somewhere (atoms : list Atom) (s : string) :
  search atoms s = true
  <-> exists s1 s2, s = s1 +:+ s2 /\ matchHere atoms s2 = true.
Proof.
  induction s as [|d s IH].
  - cbn [search]. rewrite orb_false_r. split.
    + intros H. exists EmptyString, EmptyString. auto.
    + intros (s1 & s2 & E & H). destruct s1; [|discriminate].
      rewrite append_nil in E. subst s2. exact H.
  - cbn [search]. rewrite orb_true_iff, IH. split.
    + intros [H | (s1 & s2 & -> & H)].
      * exists EmptyString, (String d s). auto.
      * exists (String d s1), s2. auto.
    + intros (s1 & s2 & E & H). destruct s1 as [|x s1].
      * left. rewrite append_nil in E. subst s2. exact H.
      * right. rewrite append_cons in E. injection E as _ ->. eauto.
Qed.

(** On a plain term the pattern search is the search for the term, the
    case of letters aside. *)
Lemma search_literals (t s : string) :
  search (literals t) s = true <-> isSubstring (toLowerCase t) (toLowerCase s).
Proof.
  rewrite search_somewhere. unfold isSubstring. split.
  - intros (s1 & s2 & -> & H). apply matchHere_literals in H as [rest Hr].
    exists (toLowerCase s1), rest. rewrite toLowerCase_app, Hr. reflexivity.
  - intros (pre & post & H).
    apply toLowerCase_split in H as (s1 & s2 & -> & _ & H2).
    exists s1, s2. split; [reflexivity|]. apply matchHere_literals. eauto.
Qed.
End SearchFacts.

Section SearchAction.
Context (P : Platform).
Import JsString.

Lemma searchRecords_blank_term (choice t : string) (v : Vault) :
  trim choice = "1" -> trim t = EmptyString ->
  perform P (SearchRecords choice t) v
  = (Normal tt, [searchMenu; "Search term is required."], v).
Proof.
  intros Hc Ht. cbn. unfold searchRecords, bind. rewrite Hc, Ht. reflexivity.
Qed.

(** For a term that is not blank and has no pattern character, the
    search by name shows exactly the records whose name contains the
    term, the case of letters aside, in creation order. *)
Lemma searchRecords_plain_term (choice t : string) (v : Vault) :
  trim choice = "1" -> truthy (trim t) = true -> isPlain (trim t) = true ->
  exists results,
    perform P (SearchRecords choice t) v
    = (Normal tt, searchMenu :: searchOutput P results,
       logged [FindSorted (Some (trim t)) SortCreatedAt Ascending] v)
    /\ (forall r, In r results
                  <-> In r (collection v)
                      /\ isSubstring (toLowerCase (trim t)) (toLowerCase (name r)))
    /\ inCreationOrder results.
Proof.
  intros Hc Ht Hp.
  exists (sortBy (leSpec SortCreatedAt Ascending)
            (List.filter (fun d => Regex.search (literals (trim t)) (name d))
               (collection v))).
  split; [|split].
  - cbn. unfold searchRecords, Record_find, showSearchResults, searchOutput, bind.
    rewrite Hc, Ht. cbn. rewrite (compile_plain _ Hp). cbn.
    case_scrutinee; reflexivity.
  - intros r. split.
    + intros Hin. apply (Permutation_in _ (sortBy_perm _ _)) in Hin.
      apply filter_In in Hin as [H1 H2]. split; [exact H1|].
      apply search_literals, H2.
    + intros [H1 H2].
      apply (Permutation_in _ (Permutation_sym (sortBy_perm _ _))).
      apply filter_In. split; [exact H1|]. apply search_literals, H2.
  - unfold inCreationOrder.
    eapply StronglySorted_weaken; [|apply sortBy_sorted].
    + intros a b H. cbn in H. lia.
    + intros a b. cbn. lia.
    + intros a b c. cbn. lia.
Qed.
End SearchAction.

(** * Closed instances *)

Section Instances.
Import JsString JsDate Reference Sample.

(** C1, the code at two adds within one second.  Every add with a name
    that is not blank and every confirmed delete of a stored record writes
    one backup of the whole collection, and no other action writes one
    ([backup_after_add_and_delete]); but the file is named after the
    second of its making, and a file of that name is replaced.  Two adds,
    800 ms apart within one second, from the empty vault: each owes a
    backup; the second add finds the backup of the first under the name it
    writes to, the number of files stays 1, and the earlier backup, of the
    collection with one record, is gone. *)
Theorem backup_within_one_second_replaces :
  forall P : Platform,
  let add1 := AddRecord "Passport" "blue" oid1 1700000000000%Z 1700000000100%Z in
  let add2 := AddRecord "Router" "Home WiFi" oid2 1700000000800%Z 1700000000900%Z in
  let v1 := after P add1 emptyVault in
  let v2 := after P add2 v1 in
  backupDue P add1 emptyVault = Some 1700000000100%Z
  /\ backupDue P add2 v1 = Some 1700000000900%Z
  /\ backupPath 1700000000100%Z = "backups/backup_2023-11-14-22-13-20.json"
  /\ backupPath 1700000000900%Z = "backups/backup_2023-11-14-22-13-20.json"
  /\ files v1 !! backupPath 1700000000900%Z = Some (JsonArray (collection v1))
  /\ files v2 !! backupPath 1700000000900%Z = Some (JsonArray (collection v2))
  /\ length (collection v1) = 1
  /\ length (collection v2) = 2
  /\ size (files v1) = 1
  /\ size (files v2) = 1.
Proof. intros P. vm_compute. repeat split. Qed.

(** C7, the claim as stated fails.  The empty string is no identifier,
    and the search by ID answers it with "ID is required.", not with
    "Invalid ID format.". *)
Lemma blank_id_search_is_not_invalid_id :
  isValidObjectId platform (trim EmptyString) = false
  /\ perform platform (SearchRecords "2" EmptyString) vault1
     = (Normal tt, [searchMenu; "ID is required."], vault1)
  /\ ~ In "Invalid ID format." (printed platform (SearchRecords "2" EmptyString) vault1).
Proof.
  split; [reflexivity|]. split; [reflexivity|].
  vm_compute. intros [H|[H|[]]]; discriminate.
Qed.



(** C4, the claim as stated fails.  Which of several names of the
    greatest length is named is not settled by the program: its [$sort]
    names the length alone.  Passport and VisaCard are both of length 8
    and Passport was created first; on the same vault a server that keeps
    the scan order among equal lengths names Passport and a server that
    reverses it names VisaCard.  And with the server that keeps the scan
    order, after VisaCard is added and then, the clock having been set
    back, Passport, the statistics name VisaCard although the creation
    date of Passport is the earlier one. *)
Lemma statistics_tie_is_left_to_the_store :
  String.length (name passport) = String.length (name visaCard)
  /\ (createdAt passport < createdAt visaCard)%Z
  /\ printed platform ViewStatistics vault3 !! 3
     = Some "Longest Name: Passport (8 characters)"
  /\ printed platformReversingTies ViewStatistics vault3 !! 3
     = Some "Longest Name: VisaCard (8 characters)"
  /\ (let addVisaCard :=
        AddRecord "VisaCard" EmptyString oid3 1700000070000%Z 1700000070100%Z in
      let addPassport :=
        AddRecord "Passport" "blue" oid1 1700000000000%Z 1700000000100%Z in
      let v := after platform addPassport (after platform addVisaCard emptyVault) in
      collection v = [visaCard; passport]
      /\ printed platform ViewStatistics v !! 3
         = Some "Longest Name: VisaCard (8 characters)").
Proof.
  split; [reflexivity|]. split; [reflexivity|].
  split; [vm_compute; reflexivity|]. split; [vm_compute; reflexivity|].
  split; vm_compute; reflexivity.
Qed.

(** C4 (amended) at a vault of three records, on a server that reverses
    the scan order among equal lengths. *)
Lemma statistics_name_a_longest_witness :
  collection vault3 <> []
  /\ exists r,
       In r (collection vault3)
       /\ printed platformReversingTies ViewStatistics vault3 !! 3
          = Some ("Longest Name: " +:+ orElse (name r) "N/A" +:+ " ("
                    +:+ pretty (String.length (name r)) +:+ " characters)")
       /\ (forall r', In r' (collection vault3) ->
             String.length (name r') <= String.length (name r)).
Proof.
  assert (Hne : collection vault3 <> []) by discriminate.
  split; [exact Hne|].
  exact (statistics_name_a_longest platformReversingTies vault3 Hne).
Defined.

(** C5, the claim as stated fails.  Router was last modified at
    1700000060000; an update that renames it while the clock reads
    1700000055000 shows, and stores, that reading as the modification
    date, which is before the old one. *)
Lemma update_with_clock_set_back_shows_an_earlier_date :
  let a := UpdateRecord "65a000000000000000000002" "X" EmptyString 1700000055000%Z in
  let shown := {| _id := oid2; name := "X"; details := "Home WiFi";
                  createdAt := 1700000050000%Z; updatedAt := 1700000055000%Z |} in
  List.find (hasId oid2) (collection vault3) = Some router
  /\ fst (perform platform a vault3)
     = (Normal tt, (nl +:+ "Record updated successfully:") :: displayLines platform 0 shown)
  /\ collection (after platform a vault3) = [passport; shown; visaCard]
  /\ (updatedAt shown < updatedAt router)%Z.
Proof. repeat split. Qed.

(** C5 (amended) at an update of the name alone. *)
Lemma update_applies_nonblank_inputs_witness :
  castObjectId platform (trim " 65A000000000000000000002 ") = Some oid2
  /\ List.find (hasId oid2) (collection vault3) = Some router
  /\ exists r',
       fst (perform platform
              (UpdateRecord " 65A000000000000000000002 " "X" EmptyString 1700000090000%Z)
              vault3)
       = (Normal tt, (nl +:+ "Record updated successfully:") :: displayLines platform 0 r')
       /\ collection (after platform
                        (UpdateRecord " 65A000000000000000000002 " "X" EmptyString
                                      1700000090000%Z)
                        vault3)
          = [passport; r'; visaCard]
       /\ name r' = "X" /\ details r' = "Home WiFi"
       /\ createdAt r' = createdAt router
       /\ updatedAt r' = 1700000090000%Z.
Proof.
  assert (Hc : castObjectId platform (trim " 65A000000000000000000002 ") = Some oid2)
    by reflexivity.
  split; [exact Hc|]. split; [reflexivity|].
  pose proof (update_applies_nonblank_inputs platform
                " 65A000000000000000000002 " "X" EmptyString 1700000090000%Z
                vault3 oid2 Hc) as H.
  change (List.find (hasId oid2) (collection vault3)) with (Some router) in H.
  destruct H as (r' & before & rest & Hout & El & Hbefore & Hcol & _ & Hn & Hd & Hcr & _
                 & _ & Hu & _ & HX).
  exists r'. split; [exact Hout|]. split.
  - rewrite Hcol. destruct before as [|x [|y before]]; cbn in El.
    + exfalso. injection El as E _. discriminate E.
    + injection El as <- <-. reflexivity.
    + exfalso. injection El as _ <- _.
      apply (Hbefore router); [right; left; reflexivity | reflexivity].
  - split; [apply HX; reflexivity|]. split; [exact Hd|]. split; [exact Hcr|].
    apply Hu. left. rewrite (HX eq_refl). discriminate.
Defined.

(** C6 at a name of three spaces. *)
Lemma blank_name_is_rejected_witness :
  trim "   " = EmptyString
  /\ perform platform (AddRecord "   " "x" oid1 1700000000000%Z 1700000000100%Z) vault1
     = (Normal tt, ["Name is required. Aborting add operation."], vault1).
Proof.
  split; [reflexivity|].
  apply (blank_name_is_rejected platform "   " "x" oid1 _ _ vault1). reflexivity.
Defined.

(** C7 (amended) at an identifier that is not hexadecimal. *)
Lemma malformed_id_is_rejected_witness :
  isValidObjectId platform (trim "passport-1") = false
  /\ trim " 2" = "2"
  /\ perform platform (UpdateRecord "passport-1" "X" "Y" 1700000090000%Z) vault3
     = (Normal tt, ["Invalid ID format."], vault3)
  /\ perform platform (DeleteRecord "passport-1" "y" 1700000090000%Z) vault3
     = (Normal tt, ["Invalid ID format."], vault3)
  /\ perform platform (SearchRecords " 2" "passport-1") vault3
     = (Normal tt, [searchMenu; "Invalid ID format."], vault3).
Proof.
  assert (H1 : isValidObjectId platform (trim "passport-1") = false) by reflexivity.
  assert (H2 : trim " 2" = "2") by reflexivity.
  split; [exact H1|]. split; [exact H2|].
  destruct (malformed_id_is_rejected platform "passport-1" "X" "Y" "y" " 2"
              1700000090000%Z vault3 H1 H2) as (Hu & Hd & Hs & _).
  split; [exact Hu|]. split; [exact Hd | exact Hs].
Defined.

(** C8 at two exports of a vault of three records: the one file that is
    left, character by character. *)
Lemma export_replaces_the_one_report_witness :
  let lf := String "010"%char EmptyString in
  let v2 := after platform (ExportData 1700000100000%Z)
              (after platform (ExportData 1700000080000%Z) vault3) in
  files v2 !! EXPORT_FILE_PATH
  = Some (Utf8Text
            ("Export Timestamp: 2023-11-14T22:15:00.000Z" +:+ lf
             +:+ "Total Records: 3" +:+ lf
             +:+ "File: export.txt" +:+ lf
             +:+ "------------------------------" +:+ lf
             +:+ lf
             +:+ "#1" +:+ lf
             +:+ "ID: 65a000000000000000000001" +:+ lf
             +:+ "Name: Passport" +:+ lf
             +:+ "Details: blue" +:+ lf
             +:+ "Created: 2023-11-14T22:13:20.000Z" +:+ lf
             +:+ "Updated: 2023-11-14T22:13:20.000Z" +:+ lf
             +:+ lf
             +:+ "#2" +:+ lf
             +:+ "ID: 65a000000000000000000002" +:+ lf
             +:+ "Name: Router" +:+ lf
             +:+ "Details: Home WiFi" +:+ lf
             +:+ "Created: 2023-11-14T22:14:10.000Z" +:+ lf
             +:+ "Updated: 2023-11-14T22:14:20.000Z" +:+ lf
             +:+ lf
             +:+ "#3" +:+ lf
             +:+ "ID: 65a000000000000000000003" +:+ lf
             +:+ "Name: VisaCard" +:+ lf
             +:+ "Details: N/A" +:+ lf
             +:+ "Created: 2023-11-14T22:14:30.000Z" +:+ lf
             +:+ "Updated: 2023-11-14T22:14:30.000Z" +:+ lf))
  /\ size (files v2) = 1.
Proof.
  intros lf v2.
  destruct (export_replaces_the_one_report platform 1700000080000%Z 1700000100000%Z
              vault3) as (Hfile & _ & Htwice & _).
  subst v2. rewrite Htwice, Hfile. split.
  - rewrite lookup_insert_eq. vm_compute. reflexivity.
  - vm_compute. reflexivity.
Defined.

(** C9 at the empty vault. *)
Lemma statistics_of_empty_vault_witness :
  collection emptyVault = []
  /\ fst (perform platform ViewStatistics emptyVault)
     = (Normal tt,
        [ nl +:+ "==== Vault Statistics ====";
          "Total Records: 0";
          "Last Modification: N/A";
          "Longest Name: N/A (0 characters)";
          "Earliest Record Date: N/A";
          "Latest Record Date: N/A" ]).
Proof.
  split; [reflexivity|].
  rewrite (statistics_of_empty_vault platform emptyVault); reflexivity.
Defined.

(** C10 at the answer No. *)
Lemma unconfirmed_delete_changes_nothing_witness :
  toLowerCase (trim " No ") <> "y"
  /\ perform platform (DeleteRecord "65a000000000000000000001" " No " 1700000090000%Z)
       vault3
     = (Normal tt, ["Delete operation cancelled."], vault3).
Proof.
  assert (H : toLowerCase (trim " No ") <> "y") by (vm_compute; discriminate).
  split; [exact H|].
  exact (unconfirmed_delete_changes_nothing platform "65a000000000000000000001" " No "
           1700000090000%Z vault3 H).
Defined.
End Instances.

Section PatternSearch.
Import JsString JsDate Sample.

Lemma char_of_substring (c : ascii) (hay : string) :
  isSubstring (String c EmptyString) hay -> Regex.occurs c hay = true.
Proof.
  intros (before & rest & ->).
  induction before as [|x before IH].
  - rewrite append_nil, append_cons. cbn. rewrite Ascii.eqb_refl. reflexivity.
  - rewrite append_cons. cbn. rewrite IH. apply orb_true_r.
Qed.

(** C3, the code at a term that is a pattern.  The store holds one
    record, named Passport; the term is a full stop, which does not
    occur in the name; the search by name shows the record. *)
Theorem search_reads_the_term_as_a_pattern :
  ~ isSubstring (toLowerCase ".") (toLowerCase (name passport))
  /\ forall P : Platform,
       perform P (SearchRecords "1" ".") vault1
       = (Normal tt,
          searchMenu :: (nl +:+ "Search Results:") :: displayLines P 0 passport,
          logged [FindSorted (Some ".") SortCreatedAt Ascending] vault1).
Proof.
  split.
  - intros H. apply char_of_substring in H. vm_compute in H. discriminate.
  - intros P. reflexivity.
Qed.
End PatternSearch.

(** * Further properties of the program *)

(** ** Orders *)

Section OrderFacts.

Lemma ascii_compare_lt_trans (a b c : ascii) :
  Ascii.compare a b = Lt -> Ascii.compare b c = Lt -> Ascii.compare a c = Lt.
Proof.
  unfold Ascii.compare. intros H1 H2.
  apply N.compare_lt_iff in H1, H2. apply N.compare_lt_iff.
  eapply N.lt_trans; eassumption.
Qed.

Lemma string_leb_trans (a b c : string) :
  String.leb a b = true -> String.leb b c = true -> String.leb a c = true.
Proof.
  unfold String.leb. revert b c.
  induction a as [|x a IH]; intros [|y b] [|z c]; cbn; try congruence.
  destruct (Ascii.compare x y) eqn:Hxy; [| |congruence].
  - apply Ascii.compare_eq_iff in Hxy as ->.
    destruct (Ascii.compare y z) eqn:Hyz; [|congruence|congruence].
    apply IH.
  - destruct (Ascii.compare y z) eqn:Hyz; [| |congruence].
    + apply Ascii.compare_eq_iff in Hyz as <-. rewrite Hxy. congruence.
    + rewrite (ascii_compare_lt_trans x y z Hxy Hyz). congruence.
Qed.

Lemma leField_total (field : SortField) (a b : RecordDoc) :
  leField field a b = true \/ leField field b a = true.
Proof.
  destruct field; cbn; [apply String.leb_total | lia | lia].
Qed.

Lemma leField_trans (field : SortField) (a b c : RecordDoc) :
  leField field a b = true -> leField field b c = true -> leField field a c = true.
Proof.
  destruct field; cbn; [apply string_leb_trans | lia | lia].
Qed.

Lemma leSpec_total (field : SortField) (order : SortOrder) (a b : RecordDoc) :
  leSpec field order a b = true \/ leSpec field order b a = true.
Proof. destruct order; cbn; apply leField_total. Qed.

Lemma leSpec_trans (field : SortField) (order : SortOrder) (a b c : RecordDoc) :
  leSpec field order a b = true -> leSpec field order b c = true ->
  leSpec field order a c = true.
Proof.
  destruct order; cbn; intros H1 H2; eauto using leField_trans.
Qed.


(** Sorting a sequence that is in order already gives the sequence
    back. *)
Lemma sortBy_of_sorted {A} (le : A -> A -> bool) (l : list A) :
  StronglySorted (fun a b => le a b = true) l -> sortBy le l = l.
Proof.
  induction 1 as [|x l Hs IH Hx]; [reflexivity|].
  rewrite sortBy_cons, IH. destruct l as [|y l]; [reflexivity|]. cbn.
  apply Forall_inv in Hx. rewrite Hx. reflexivity.
Qed.

Lemma snapshot_of_ordered (v : Vault) :
  inCreationOrder (collection v) -> snapshot v = collection v.
Proof.
  intros H. apply sortBy_of_sorted.
  eapply StronglySorted_weaken; [|exact H]. intros a b Hab. cbn.
  apply Z.leb_le, Hab.
Qed.
End OrderFacts.

(** ** Listing, sorting and searching *)

Section ListingFacts.
Context (P : Platform).
Import JsString JsDate.

Lemma displayBody_length (records : list RecordDoc) :
  length (displayBody P records) = 6 * length records.
Proof. unfold displayBody. apply length_concat_imap. reflexivity. Qed.

Lemma displayBody_entry (records : list RecordDoc) (k : nat) (r : RecordDoc) :
  records !! k = Some r ->
  take 6 (drop (6 * k) (displayBody P records)) = displayEntry P k r.
Proof.
  intros Hk. unfold displayBody.
  rewrite (concat_imap_block _ 6 _ k r); [reflexivity | reflexivity | exact Hk].
Qed.

Lemma listRecords_spec (v : Vault) :
  perform P ListRecords v
  = (Normal tt,
     match snapshot v with
     | [] => ["No records available."]
     | _ :: _ => (nl +:+ "All Records:") :: displayBody P (snapshot v)
     end,
     logged [FindSorted None SortCreatedAt Ascending] v).
Proof.
  cbn. unfold listRecords, Record_find, bind, snapshot. cbn.
  destruct (sortBy (leSpec SortCreatedAt Ascending) (collection v)); reflexivity.
Qed.

Lemma snapshot_nil_iff (v : Vault) : snapshot v = [] <-> collection v = [].
Proof.
  pose proof (sortBy_length (leSpec SortCreatedAt Ascending) (collection v)) as HL.
  unfold snapshot. split; intros H.
  - rewrite H in HL. destruct (collection v); [reflexivity | discriminate].
  - rewrite H. reflexivity.
Qed.

(** X1.  Listing prints "No records available." exactly when the
    collection is empty; otherwise it prints a heading and, for every
    record, in creation order, six lines: number, identifier, name,
    details (or N/A), creation and modification dates.  It changes no
    record and no file. *)
Theorem list_shows_every_record_in_creation_order (v : Vault) :
  let listing := snapshot v in
  after P ListRecords v = logged [FindSorted None SortCreatedAt Ascending] v
  /\ Permutation listing (collection v)
  /\ inCreationOrder listing
  /\ (collection v = [] -> printed P ListRecords v = ["No records available."])
  /\ (collection v <> [] ->
      printed P ListRecords v = (nl +:+ "All Records:") :: displayBody P listing
      /\ length (displayBody P listing) = 6 * length (collection v)
      /\ forall k r, listing !! k = Some r ->
           take 6 (drop (6 * k) (displayBody P listing)) = displayEntry P k r).
Proof.
  intros listing. unfold after, printed. rewrite listRecords_spec. cbn [fst snd].
  split; [reflexivity|]. split; [apply snapshot_perm|]. split; [apply snapshot_sorted|].
  split.
  - intros H. apply snapshot_nil_iff in H. rewrite H. reflexivity.
  - intros H. split; [|split].
    + destruct (snapshot v) eqn:E; [|reflexivity].
      apply snapshot_nil_iff in E. contradiction.
    + rewrite displayBody_length. subst listing. unfold snapshot.
      rewrite sortBy_length. reflexivity.
    + intros k r. apply displayBody_entry.
Qed.

Lemma sortRecords_spec (f o : string) (v : Vault) :
  perform P (SortRecords f o) v
  = match chosenField (trim f) with
    | None => (Normal tt, [sortFieldMenu; "Invalid selection."], v)
    | Some field =>
        match chosenOrder (trim o) with
        | None => (Normal tt, [sortFieldMenu; sortOrderMenu; "Invalid selection."], v)
        | Some order =>
            (Normal tt,
             sortFieldMenu :: sortOrderMenu ::
               match sortBy (leSpec field order) (collection v) with
               | [] => ["No records to sort."]
               | _ :: _ =>
                   (nl +:+ "Sorted Records:")
                     :: displayBody P (sortBy (leSpec field order) (collection v))
               end,
             logged [FindSorted None field order] v)
        end
    end.
Proof.
  cbn. unfold sortRecords, chosenField, chosenOrder, Record_find, bind.
  destruct (String.eqb (trim f) "1"), (String.eqb (trim f) "2"),
    (String.eqb (trim o) "1"), (String.eqb (trim o) "2"); cbn; try reflexivity;
    match goal with
    | |- context [sortBy ?le ?l] => destruct (sortBy le l); reflexivity
    end.
Qed.

(** X2.  A sort whose field answer, or whose order answer, is neither 1
    nor 2 prints "Invalid selection." and stops: nothing is sent to the
    store and the vault is unchanged; with a bad field answer the order is
    not even asked. *)
Theorem sort_rejects_a_bad_selection (f o : string) (v : Vault) :
  chosenField (trim f) = None \/ chosenOrder (trim o) = None ->
  perform P (SortRecords f o) v
  = (Normal tt,
     sortFieldMenu
       :: match chosenField (trim f) with
          | None => ["Invalid selection."]
          | Some _ => [sortOrderMenu; "Invalid selection."]
          end,
     v).
Proof.
  intros H. rewrite sortRecords_spec.
  destruct (chosenField (trim f)); [|reflexivity].
  destruct H as [H|H]; [discriminate|]. rewrite H. reflexivity.
Qed.


Lemma find_unique (oid : ObjectId) (l : list RecordDoc) (r : RecordDoc) :
  uniqueIds l -> In r l -> _id r = oid -> List.find (hasId oid) l = Some r.
Proof.
  unfold uniqueIds. induction l as [|d l IH]; cbn; [contradiction|].
  intros Hnd Hin Hid. apply List.NoDup_cons_iff in Hnd as [Hd Hnd].
  unfold hasId at 1. destruct (String.eqb_spec (_id d) oid) as [E|E].
  - destruct Hin as [->|Hin]; [reflexivity|].
    exfalso. apply Hd. rewrite E, <- Hid. apply in_map, Hin.
  - destruct Hin as [->|Hin]; [contradiction|]. apply IH; assumption.
Qed.

Lemma find_absent (oid : ObjectId) (l : list RecordDoc) :
  (forall r, In r l -> _id r <> oid) -> List.find (hasId oid) l = None.
Proof.
  induction l as [|d l IH]; cbn; [reflexivity|]. intros H.
  unfold hasId at 1. destruct (String.eqb_spec (_id d) oid) as [E|E].
  - exfalso. apply (H d); [left; reflexivity | exact E].
  - apply IH. intros r Hr. apply H. right. exact Hr.
Qed.

Lemma searchById_spec (choice i : string) (v : Vault) (oid : ObjectId) :
  trim choice = "2" -> truthy (trim i) = true ->
  castObjectId P (trim i) = Some oid ->
  perform P (SearchRecords choice i) v
  = (Normal tt,
     searchMenu :: searchOutput P (match List.find (hasId oid) (collection v) with
                                   | Some r => [r]
                                   | None => []
                                   end),
     logged [FindById oid] v).
Proof.
  intros Hc Ht Hid. cbn.
  unfold searchRecords, isValidObjectId, Record_findById, showSearchResults, bind.
  rewrite Hc, Ht, Hid. cbn.
  destruct (List.find (hasId oid) (collection v)); reflexivity.
Qed.

(** X4.  A search by a well-formed identifier shows the one record that
    carries it, when identifiers are unique, and "No records found." when
    no record carries it; it changes no record and no file. *)
Theorem search_by_id_shows_the_record (choice i : string) (v : Vault) (oid : ObjectId) :
  trim choice = "2" -> truthy (trim i) = true ->
  castObjectId P (trim i) = Some oid ->
  uniqueIds (collection v) ->
  after P (SearchRecords choice i) v = logged [FindById oid] v
  /\ (forall r, In r (collection v) -> _id r = oid ->
        printed P (SearchRecords choice i) v
        = searchMenu :: (nl +:+ "Search Results:") :: displayEntry P 0 r)
  /\ ((forall r, In r (collection v) -> _id r <> oid) ->
        printed P (SearchRecords choice i) v = [searchMenu; "No records found."]).
Proof.
  intros Hc Ht Hid Hu. unfold after, printed.
  rewrite (searchById_spec choice i v oid Hc Ht Hid). cbn [fst snd].
  split; [reflexivity|]. split.
  - intros r Hin Hr. rewrite (find_unique oid _ r Hu Hin Hr). reflexivity.
  - intros Hno. rewrite (find_absent oid _ Hno). reflexivity.
Qed.

(** X5.  A search stops before any store call, leaving the vault
    unchanged, when the choice is neither 1 nor 2 ("Invalid choice."),
    when the name term is blank ("Search term is required.") and when the
    identifier is blank ("ID is required."). *)
Theorem search_rejects_bad_choice_and_blank_input (choice t : string) (v : Vault) :
  (trim choice <> "1" /\ trim choice <> "2") \/ trim t = EmptyString ->
  perform P (SearchRecords choice t) v
  = (Normal tt,
     [searchMenu;
      if String.eqb (trim choice) "1" then "Search term is required."
      else if String.eqb (trim choice) "2" then "ID is required."
      else "Invalid choice."],
     v).
Proof.
  intros H. cbn. unfold searchRecords, bind.
  destruct (String.eqb_spec (trim choice) "1") as [E1|E1].
  - destruct H as [[H _]|H]; [contradiction|]. rewrite H. reflexivity.
  - destruct (String.eqb_spec (trim choice) "2") as [E2|E2]; [|reflexivity].
    destruct H as [[_ H]|H]; [contradiction|]. rewrite H. reflexivity.
Qed.
End ListingFacts.

(** ** Adding, updating and deleting *)

Section MutationFacts.
Context (P : Platform).
Import JsString JsDate.

Lemma removeFirst_absent (oid : ObjectId) (l : list RecordDoc) :
  List.find (hasId oid) l = None -> removeFirst oid l = l.
Proof.
  induction l as [|d l IH]; cbn; [reflexivity|].
  destruct (hasId oid d); [discriminate|]. intros H. rewrite IH by exact H. reflexivity.
Qed.

Lemma removeFirst_length (oid : ObjectId) (l : list RecordDoc) (r : RecordDoc) :
  List.find (hasId oid) l = Some r -> S (length (removeFirst oid l)) = length l.
Proof.
  induction l as [|d l IH]; cbn; [discriminate|].
  destruct (hasId oid d); [reflexivity|]. intros H. cbn. rewrite IH by exact H. reflexivity.
Qed.

Lemma removeFirst_unique (oid : ObjectId) (l : list RecordDoc) :
  uniqueIds l -> removeFirst oid l = List.filter (fun d => negb (hasId oid d)) l.
Proof.
  unfold uniqueIds. induction l as [|d l IH]; cbn; [reflexivity|].
  intros Hnd. apply List.NoDup_cons_iff in Hnd as [Hd Hnd].
  destruct (hasId oid d) eqn:E; cbn.
  - apply String.eqb_eq in E. symmetry. apply forallb_filter_id.
    apply forallb_forall. intros x Hx. apply negb_true_iff.
    apply String.eqb_neq. intros Ex. apply Hd. rewrite E, <- Ex. apply in_map, Hx.
  - rewrite IH by exact Hnd. reflexivity.
Qed.

Lemma removeFirst_ids (oid : ObjectId) (l : list RecordDoc) :
  uniqueIds l -> uniqueIds (removeFirst oid l).
Proof.
  unfold uniqueIds. induction l as [|d l IH]; cbn; [trivial|].
  intros Hnd. apply List.NoDup_cons_iff in Hnd as [Hd Hnd].
  destruct (hasId oid d); [exact Hnd|]. cbn. constructor; [|apply IH, Hnd].
  intros Hin. apply Hd. apply in_map_iff in Hin as (x & Ex & Hx).
  apply in_map_iff. exists x. split; [exact Ex|]. eapply removeFirst_incl, Hx.
Qed.

Lemma replaceFirst_ids (oid : ObjectId) (new : RecordDoc) (l : list RecordDoc) :
  _id new = oid ->
  map _id (replaceFirst oid new l) = map _id l.
Proof.
  intros Hnew.
  induction l as [|d l IH]; cbn; [reflexivity|].
  destruct (hasId oid d) eqn:E; cbn.
  - apply String.eqb_eq in E. congruence.
  - rewrite IH. reflexivity.
Qed.

Lemma deleteRecord_missing (i c : string) (t : Date) (v : Vault) (oid : ObjectId) :
  castObjectId P (trim i) = Some oid ->
  toLowerCase (trim c) = "y" ->
  List.find (hasId oid) (collection v) = None ->
  perform P (DeleteRecord i c t) v
  = (Normal tt, ["Record not found."], logged [FindByIdAndDelete oid] v).
Proof.
  intros Hc Hy Hf. cbn.
  unfold deleteRecord, isValidObjectId, Record_findByIdAndDelete, bind.
  rewrite Hc, Hy. cbn. rewrite Hf, (removeFirst_absent _ _ Hf). reflexivity.
Qed.

(** X6.  A confirmed delete of a stored record removes that record and
    no other: one record fewer, and, identifiers being unique, the other
    records stay as they were and in their order; it prints "Record deleted
    successfully." and the name of the backup. *)
Theorem delete_removes_exactly_the_record (i c : string) (t : Date) (v : Vault)
        (oid : ObjectId) (r : RecordDoc) :
  castObjectId P (trim i) = Some oid ->
  toLowerCase (trim c) = "y" ->
  List.find (hasId oid) (collection v) = Some r ->
  let v' := after P (DeleteRecord i c t) v in
  printed P (DeleteRecord i c t) v
  = ["Record deleted successfully."; "Backup created: " +:+ backupFilename t]
  /\ S (length (collection v')) = length (collection v)
  /\ (uniqueIds (collection v) ->
      collection v' = List.filter (fun d => negb (hasId oid d)) (collection v)
      /\ forall d, In d (collection v') <-> In d (collection v) /\ _id d <> oid).
Proof.
  intros Hc Hy Hf v'. subst v'. unfold after, printed.
  assert (Hy' : String.eqb (toLowerCase (trim c)) "y" = true)
    by (rewrite Hy; reflexivity).
  rewrite (deleteRecord_success P i c t v oid r Hc Hy' Hf). cbn [fst snd collection].
  split; [reflexivity|]. split; [apply (removeFirst_length oid _ r Hf)|].
  intros Hu. rewrite (removeFirst_unique oid _ Hu). split; [reflexivity|].
  intros d. rewrite filter_In. unfold hasId. rewrite negb_true_iff, String.eqb_neq.
  reflexivity.
Qed.

(** X7.  After a confirmed delete of a stored record, identifiers being
    unique, the identifier resolves no more: an update and a second delete
    answer "Record not found." and a search by ID answers "No records
    found.". *)
Theorem deleted_id_resolves_no_more (i c : string) (t : Date) (v : Vault)
        (oid : ObjectId) (r : RecordDoc) :
  uniqueIds (collection v) ->
  castObjectId P (trim i) = Some oid ->
  toLowerCase (trim c) = "y" ->
  List.find (hasId oid) (collection v) = Some r ->
  let v' := after P (DeleteRecord i c t) v in
  (forall d, In d (collection v') -> _id d <> oid)
  /\ (forall n d t', printed P (UpdateRecord i n d t') v' = ["Record not found."])
  /\ (forall t', printed P (DeleteRecord i c t') v' = ["Record not found."])
  /\ (forall choice, trim choice = "2" -> truthy (trim i) = true ->
        printed P (SearchRecords choice i) v' = [searchMenu; "No records found."]).
Proof.
  intros Hu Hc Hy Hf v'.
  assert (Hy' : String.eqb (toLowerCase (trim c)) "y" = true)
    by (rewrite Hy; reflexivity).
  assert (Hcol : collection v' = List.filter (fun d => negb (hasId oid d)) (collection v)).
  { subst v'. unfold after.
    rewrite (deleteRecord_success P i c t v oid r Hc Hy' Hf). cbn [snd collection].
    apply removeFirst_unique, Hu. }
  assert (Hgone : forall d, In d (collection v') -> _id d <> oid).
  { intros d Hd. rewrite Hcol in Hd. apply filter_In in Hd as [_ Hd].
    apply negb_true_iff in Hd. apply String.eqb_neq, Hd. }
  pose proof (find_absent oid _ Hgone) as Hnone.
  split; [exact Hgone|]. split; [|split].
  - intros n d t'. unfold printed.
    rewrite (updateRecord_missing P i n d t' v' oid Hc Hnone). reflexivity.
  - intros t'. unfold printed.
    rewrite (deleteRecord_missing i c t' v' oid Hc Hy Hnone). reflexivity.
  - intros choice Hch Ht. unfold printed.
    rewrite (searchById_spec P choice i v' oid Hch Ht Hc), Hnone. reflexivity.
Qed.

(** X8.  A confirmed delete of a well-formed identifier that no record
    carries answers "Record not found.": one delete is sent to the store,
    no record and no file changes, and no backup is made. *)
Theorem delete_of_a_missing_record_changes_nothing (i c : string) (t : Date)
        (v : Vault) (oid : ObjectId) :
  castObjectId P (trim i) = Some oid ->
  toLowerCase (trim c) = "y" ->
  (forall d, In d (collection v) -> _id d <> oid) ->
  perform P (DeleteRecord i c t) v
  = (Normal tt, ["Record not found."], logged [FindByIdAndDelete oid] v).
Proof.
  intros Hc Hy Hno. apply deleteRecord_missing; [exact Hc | exact Hy|].
  apply find_absent, Hno.
Qed.

Lemma find_snoc_fresh (oid : ObjectId) (l : list RecordDoc) (doc : RecordDoc) :
  (forall d, In d l -> _id d <> oid) -> _id doc = oid ->
  List.find (hasId oid) (l ++ [doc]) = Some doc.
Proof.
  intros Hfresh Hdoc. induction l as [|d l IH]; cbn.
  - unfold hasId. rewrite Hdoc, String.eqb_refl. reflexivity.
  - unfold hasId at 1. destruct (String.eqb_spec (_id d) oid) as [E|E].
    + exfalso. apply (Hfresh d); [left; reflexivity | exact E].
    + apply IH. intros x Hx. apply Hfresh. right. exact Hx.
Qed.

(** X9.  A record added under a fresh identifier is found again by the
    identifier that the add displayed: the search by ID shows it with the
    trimmed name and details and the clock reading as both dates, and it
    is the last record of the collection. *)
Theorem added_record_is_found_by_its_id (n d : string) (oid : ObjectId)
        (t1 t2 : Date) (v : Vault) (choice : string) :
  truthy (trim n) = true ->
  (forall r, In r (collection v) -> _id r <> oid) ->
  trim choice = "2" -> truthy (trim oid) = true ->
  castObjectId P (trim oid) = Some oid ->
  let v' := after P (AddRecord n d oid t1 t2) v in
  let doc := {| _id := oid; name := trim n; details := trim d;
                createdAt := t1; updatedAt := t1 |} in
  collection v' = collection v ++ [doc]
  /\ In ("ID: " +:+ oid) (printed P (AddRecord n d oid t1 t2) v)
  /\ printed P (SearchRecords choice oid) v'
     = searchMenu :: (nl +:+ "Search Results:") :: displayEntry P 0 doc.
Proof.
  intros Hn Hfresh Hch Ht Hcast v' doc.
  assert (Hcol : collection v' = collection v ++ [doc]).
  { subst v'. unfold after. rewrite (addRecord_success P n d oid t1 t2 v Hn). reflexivity. }
  split; [exact Hcol|]. split.
  - unfold printed. rewrite (addRecord_success P n d oid t1 t2 v Hn). cbn. auto.
  - unfold printed. rewrite (searchById_spec P choice oid v' oid Hch Ht Hcast), Hcol.
    rewrite (find_snoc_fresh oid _ doc Hfresh eq_refl). reflexivity.
Qed.

(** X10.  Identifiers stay unique: an action keeps them unique provided
    the identifier generated for an add is carried by no stored record. *)
Theorem ids_stay_unique (a : Action) (v : Vault) :
  uniqueIds (collection v) ->
  match a with
  | AddRecord _ _ oid _ _ => forall r, In r (collection v) -> _id r <> oid
  | _ => True
  end ->
  uniqueIds (collection (after P a v)).
Proof.
  intros Hu Hfresh.
  destruct (collection_after P a v)
    as [-> | [(n & d & oid & t1 & t2 & -> & Hn & ->)
           | [(i & n & d & t & oid & r & -> & Hcast & Hf & ->)
             | (i & c & t & oid & -> & ->)]]].
  - exact Hu.
  - unfold uniqueIds. rewrite map_app. cbn.
    eapply Permutation_NoDup; [apply Permutation_cons_append|].
    constructor; [|exact Hu].
    intros Hin. apply in_map_iff in Hin as (x & Ex & Hx). exact (Hfresh x Hx Ex).
  - unfold uniqueIds.
    rewrite (replaceFirst_ids oid (savedRecord n d t r) (collection v)); [exact Hu|].
    destruct (savedRecord_fields n d t r) as (_ & _ & _ & -> & _).
    apply (find_hasId oid _ r Hf).
  - apply removeFirst_ids, Hu.
Qed.
End MutationFacts.

(** ** What an action leaves alone *)

Section FrameFacts.
Context (P : Platform).
Import JsString JsDate.

Lemma find_none_hasId (oid : ObjectId) (l : list RecordDoc) (d : RecordDoc) :
  List.find (hasId oid) l = None -> In d l -> hasId oid d = false.
Proof. intros H Hin. exact (find_none _ _ H d Hin). Qed.

Lemma replaceFirst_lookup (oid : ObjectId) (new : RecordDoc) (l : list RecordDoc) :
  uniqueIds l ->
  forall k d, l !! k = Some d ->
    replaceFirst oid new l !! k = Some (if hasId oid d then new else d).
Proof.
  unfold uniqueIds. induction l as [|x l IH]; intros Hnd k d Hk; [discriminate|].
  cbn in Hnd. apply List.NoDup_cons_iff in Hnd as [Hx Hnd]. cbn [replaceFirst].
  destruct (hasId oid x) eqn:E.
  - destruct k as [|k]; cbn in Hk |- *.
    + injection Hk as <-. rewrite E. reflexivity.
    + rewrite Hk. destruct (hasId oid d) eqn:Ed; [|reflexivity].
      exfalso. apply Hx. apply String.eqb_eq in E, Ed. rewrite E, <- Ed.
      apply in_map. apply list_elem_of_In. eapply list_elem_of_lookup_2, Hk.
  - destruct k as [|k]; cbn in Hk |- *.
    + injection Hk as <-. rewrite E. reflexivity.
    + apply IH; assumption.
Qed.

Lemma replaceFirst_map {B} (f : RecordDoc -> B) (oid : ObjectId) (new r : RecordDoc)
      (l : list RecordDoc) :
  List.find (hasId oid) l = Some r -> f new = f r ->
  map f (replaceFirst oid new l) = map f l.
Proof.
  intros Hf Hnew. induction l as [|d l IH]; cbn in *; [reflexivity|].
  destruct (hasId oid d); cbn.
  - injection Hf as ->. rewrite Hnew. reflexivity.
  - rewrite IH by exact Hf. reflexivity.
Qed.

(** X11.  An update changes at most the record that carries the
    identifier: identifiers being unique, every record stays at its place,
    the addressed record becomes the saved one and every other record is
    left as it was. *)
Theorem update_changes_only_the_addressed_record (i n d : string) (t : Date)
        (v : Vault) (oid : ObjectId) :
  castObjectId P (trim i) = Some oid ->
  uniqueIds (collection v) ->
  length (collection (after P (UpdateRecord i n d t) v)) = length (collection v)
  /\ forall k r, collection v !! k = Some r ->
       collection (after P (UpdateRecord i n d t) v) !! k
       = Some (if hasId oid r then savedRecord n d t r else r).
Proof.
  intros Hc Hu.
  destruct (List.find (hasId oid) (collection v)) as [r0|] eqn:Hf.
  - destruct (updateRecord_found P i n d t v oid r0 Hc Hf) as [_ ->]. split.
    + rewrite <- (length_map _id), (replaceFirst_ids oid); [apply length_map|].
      destruct (savedRecord_fields n d t r0) as (_ & _ & _ & -> & _).
      apply (find_hasId oid _ r0 Hf).
    + intros k r Hk. rewrite (replaceFirst_lookup oid _ _ Hu k r Hk).
      destruct (hasId oid r) eqn:E; [|reflexivity].
      assert (Hin : In r (collection v))
        by (apply list_elem_of_In; eapply list_elem_of_lookup_2, Hk).
      apply String.eqb_eq in E.
      rewrite (find_unique oid _ r Hu Hin E) in Hf. injection Hf as ->. reflexivity.
  - unfold after. rewrite (updateRecord_missing P i n d t v oid Hc Hf). cbn.
    split; [reflexivity|]. intros k r Hk.
    rewrite (find_none_hasId oid _ r Hf); [exact Hk|].
    apply list_elem_of_In. eapply list_elem_of_lookup_2, Hk.
Qed.

(** X12.  Only an add and a delete change which records exist: listing,
    searching, sorting, exporting and the statistics leave the collection
    as it is, and an update leaves the identifiers, the creation dates
    and the order of the records as they are. *)
Theorem only_add_and_delete_change_which_records_exist (a : Action) (v : Vault) :
  match a with
  | AddRecord _ _ _ _ _ | DeleteRecord _ _ _ => True
  | UpdateRecord _ _ _ _ =>
      map (fun r => (_id r, createdAt r)) (collection (after P a v))
      = map (fun r => (_id r, createdAt r)) (collection v)
  | _ => collection (after P a v) = collection v
  end.
Proof.
  destruct a as [n d oid t1 t2 | i n d t | i c t | | c t | f o | t | ];
    try exact I; try reflexivity.
  - destruct (collection_after P (UpdateRecord i n d t) v)
      as [-> | [(n' & d' & oid & t1 & t2 & E & _)
             | [(i' & n' & d' & t' & oid & r & E & _ & Hf & ->)
               | (i' & c & t' & oid & E & _)]]];
      try discriminate E; [reflexivity|].
    injection E as <- <- <- <-.
    apply (replaceFirst_map _ oid _ r); [exact Hf|].
    destruct (savedRecord_fields n d t r) as (_ & _ & -> & -> & _). reflexivity.
  - apply files_after_list.
  - apply files_after_search.
  - apply files_after_sort.
Qed.


Lemma files_after_cases (a : Action) (v : Vault) :
  files (after P a v) = files v
  \/ exists path content, files (after P a v) = <[path := content]> (files v).
Proof.
  destruct a as [n d oid t1 t2 | i n d t | i c t | | c t | f o | t | ].
  - destruct (truthy (trim n)) eqn:Hn.
    + right. unfold after. rewrite (addRecord_success P n d oid t1 t2 v Hn). eauto.
    + left. apply truthy_false_iff in Hn. unfold after.
      rewrite (addRecord_blank_name P n d oid t1 t2 v Hn). reflexivity.
  - left. apply files_after_update.
  - destruct (backupDue P (DeleteRecord i c t) v) as [now|] eqn:Hdue.
    + cbn in Hdue.
      destruct (castObjectId P (trim i)) as [oid|] eqn:Hc; [|discriminate].
      destruct (String.eqb (toLowerCase (trim c)) "y") eqn:Hy; [|discriminate].
      destruct (List.find (hasId oid) (collection v)) as [r|] eqn:Hf; [|discriminate].
      right. unfold after. rewrite (deleteRecord_success P i c t v oid r Hc Hy Hf). eauto.
    + left. apply (deleteRecord_failure P i c t v Hdue).
  - left. apply files_after_list.
  - left. apply files_after_search.
  - left. apply files_after_sort.
  - right. unfold after. rewrite exportData_spec. eauto.
  - left. reflexivity.
Qed.

Lemma files_persist_step (a : Action) (v : Vault) (path : string) :
  is_Some (files v !! path) -> is_Some (files (after P a v) !! path).
Proof.
  intros H. destruct (files_after_cases a v) as [-> | (p & c & ->)]; [exact H|].
  destruct (decide (p = path)) as [->|Hne].
  - rewrite lookup_insert_eq. eauto.
  - rewrite lookup_insert_ne by exact Hne. exact H.
Qed.
End FrameFacts.

(** ** Statistics and sessions *)

Section SessionFacts.
Context (P : Platform).
Import JsString JsDate.

Lemma head_of_sorted_collection (field : SortField) (order : SortOrder)
      (l : list RecordDoc) :
  l <> [] ->
  exists m, head (sortBy (leSpec field order) l) = Some m
            /\ In m l /\ forall d, In d l -> leSpec field order m d = true.
Proof.
  intros Hne.
  destruct (head (sortBy (leSpec field order) l)) as [m|] eqn:Hm.
  - destruct (head_sortBy (leSpec field order) (leSpec_total field order)
                (leSpec_trans field order) l m Hm) as (l1 & l2 & El & _ & Hall).
    exists m. split; [reflexivity|]. split; [rewrite El; apply in_elt | exact Hall].
  - exfalso. pose proof (sortBy_length (leSpec field order) l) as HL.
    destruct (sortBy (leSpec field order) l); [|discriminate].
    destruct l; [congruence | discriminate].
Qed.

(** X14.  On a vault that is not empty the statistics print the number
    of records, the greatest modification date, and the least and the
    greatest creation dates over the stored records; they change no record
    and no file. *)
Theorem statistics_report_count_and_dates (v : Vault) :
  collection v <> [] ->
  exists lastModified earliest latest,
    In lastModified (collection v) /\ In earliest (collection v)
    /\ In latest (collection v)
    /\ (forall d, In d (collection v) ->
          (updatedAt d <= updatedAt lastModified)%Z
          /\ (createdAt earliest <= createdAt d)%Z
          /\ (createdAt d <= createdAt latest)%Z)
    /\ printed P ViewStatistics v !! 1
       = Some ("Total Records: " +:+ pretty (length (collection v)))
    /\ printed P ViewStatistics v !! 2
       = Some ("Last Modification: " +:+ toLocaleString P (updatedAt lastModified))
    /\ printed P ViewStatistics v !! 4
       = Some ("Earliest Record Date: " +:+ toLocaleString P (createdAt earliest))
    /\ printed P ViewStatistics v !! 5
       = Some ("Latest Record Date: " +:+ toLocaleString P (createdAt latest))
    /\ collection (after P ViewStatistics v) = collection v
    /\ files (after P ViewStatistics v) = files v.
Proof.
  intros Hne.
  destruct (head_of_sorted_collection SortUpdatedAt Descending _ Hne)
    as (m & Hm & Hmin & Hmall).
  destruct (head_of_sorted_collection SortCreatedAt Ascending _ Hne)
    as (e & He & Hein & Heall).
  destruct (head_of_sorted_collection SortCreatedAt Descending _ Hne)
    as (l & Hl & Hlin & Hlall).
  exists m, e, l. split; [exact Hmin|]. split; [exact Hein|]. split; [exact Hlin|].
  split.
  { intros d Hd. specialize (Hmall d Hd). specialize (Heall d Hd).
    specialize (Hlall d Hd). cbn in Hmall, Heall, Hlall. lia. }
  rewrite viewVaultStatistics_lines. cbv zeta. rewrite Hm, He, Hl.
  repeat split; reflexivity.
Qed.

Lemma clockAheadb_spec (a : Action) (v : Vault) :
  clockAheadb a v = true -> clockAhead a v.
Proof.
  unfold clockAheadb, clockAhead. intros H t d Ht Hd.
  rewrite forallb_forall in H. specialize (H t Ht).
  rewrite forallb_forall in H. specialize (H d Hd).
  apply andb_true_iff in H as [H1 H2]. apply Z.leb_le in H1, H2. split; assumption.
Qed.

Lemma clockNeverBackb_spec (turns : list Turn) (v : Vault) :
  clockNeverBackb P turns v = true -> clockNeverBack P turns v.
Proof.
  revert v. induction turns as [|t rest IH]; intros v H; [exact I|].
  cbn [clockNeverBack clockNeverBackb] in *.
  destruct (selectedOption (trim (typed t))) as [option|]; [|apply IH, H].
  destruct (action option t) as [a|]; [|exact I].
  apply andb_true_iff in H as [Ha Hrest].
  split; [apply clockAheadb_spec, Ha | apply IH, Hrest].
Qed.

Lemma mainLoop_vault_cons (t : Turn) (rest : list Turn) (v : Vault) :
  vault (mainLoop P (t :: rest) v)
  = match selectedOption (trim (typed t)) with
    | None => vault (mainLoop P rest v)
    | Some option =>
        match action option t with
        | ExitApp => v
        | Run a => vault (mainLoop P rest (after P a v))
        end
    end.
Proof.
  cbn [mainLoop]. destruct (selectedOption (trim (typed t))) as [option|]; [|reflexivity].
  destruct (action option t); reflexivity.
Qed.

(** X16.  Through a whole session of the menu loop, from a vault of
    valid records in creation order and with a clock that does not go
    back, the records stay valid and in creation order, whatever is typed
    and whether or not an action throws; so the listing of list, export
    and backup is the collection in insertion order at the end too. *)
Theorem session_keeps_records_valid_and_ordered (turns : list Turn) (v : Vault) :
  Forall validRecord (collection v) ->
  inCreationOrder (collection v) ->
  clockNeverBack P turns v ->
  let final := vault (mainLoop P turns v) in
  Forall validRecord (collection final)
  /\ inCreationOrder (collection final)
  /\ snapshot final = collection final.
Proof.
  revert v. induction turns as [|t rest IH]; intros v Hv Ho Hclock.
  - cbn. split; [exact Hv|]. split; [exact Ho | apply snapshot_of_ordered, Ho].
  - cbv zeta. rewrite mainLoop_vault_cons. cbn [clockNeverBack] in Hclock.
    destruct (selectedOption (trim (typed t))) as [option|]; [|apply IH; assumption].
    destruct (action option t) as [a|].
    + destruct Hclock as [Ha Hrest].
      apply IH; [apply validity_kept | apply creation_order_kept | exact Hrest];
        assumption.
    + split; [exact Hv|]. split; [exact Ho | apply snapshot_of_ordered, Ho].
Qed.

(** X17.  No action and no session removes a file: a backup or an export
    that exists stays in place, whatever is typed afterwards. *)
Theorem no_file_is_ever_removed (turns : list Turn) (v : Vault) (path : string) :
  is_Some (files v !! path) ->
  is_Some (files (vault (mainLoop P turns v)) !! path).
Proof.
  revert v. induction turns as [|t rest IH]; intros v H; [exact H|].
  rewrite mainLoop_vault_cons.
  destruct (selectedOption (trim (typed t))) as [option|]; [|apply IH, H].
  destruct (action option t) as [a|]; [|exact H].
  apply IH, files_persist_step, H.
Qed.

(** X18.  The menu accepts exactly the keys 0 to 8.  Any other choice
    prints the menu and "Invalid selection. Please try again.", changes
    nothing, and the loop goes on with the next turn; the key 0 prints
    "Exiting application...", leaves the vault as it is, and ends the
    session, so that what is typed after it has no effect. *)
Theorem menu_rejects_unknown_keys_and_exits_on_zero (t : Turn) (rest : list Turn)
        (v : Vault) :
  (selectedOption (trim (typed t)) = None
   <-> ~ In (trim (typed t)) ["1"; "2"; "3"; "4"; "5"; "6"; "7"; "8"; "0"])
  /\ (selectedOption (trim (typed t)) = None ->
      mainLoop P (t :: rest) v
      = emit (promptMenu ++ ["Invalid selection. Please try again."]) []
             (mainLoop P rest v))
  /\ (trim (typed t) = "0" ->
      mainLoop P (t :: rest) v
      = {| stdout := promptMenu ++ ["Exiting application..."]; stderr := [];
           vault := v; exited := true |}).
Proof.
  split; [|split].
  - unfold selectedOption. generalize (trim (typed t)) as choice. intros choice.
    cbn [List.find menuOptions key].
    repeat (match goal with
            | |- context [String.eqb ?k choice] =>
                destruct (String.eqb_spec k choice) as [<-|?]
            end;
            [split; [discriminate | intros H; exfalso; apply H; cbn; auto 12]|]).
    split; [|reflexivity]. intros _ H. cbn in H.
    repeat (destruct H as [H|H]; [congruence|]). exact H.
  - intros H. cbn [mainLoop]. rewrite H. reflexivity.
  - intros H. cbn [mainLoop]. rewrite H. reflexivity.
Qed.
End SessionFacts.

(** ** Backup names and seconds *)

Section BackupSeconds.
Import JsString JsDate.
#[local] Open Scope Z_scope.

Lemma allBelow_iter (check : Z -> bool) (n : positive) :
  let state := Pos.iter (fun state => (fst state + 1, snd state && check (fst state)))
                        (0, true) n in
  fst state = Z.pos n
  /\ (snd state = true -> forall z, 0 <= z < Z.pos n -> check z = true).
Proof.
  induction n as [|n IH] using Pos.peano_ind.
  - cbn. split; [reflexivity|]. intros H z Hz. assert (z = 0) as -> by lia. exact H.
  - rewrite Pos.iter_succ. cbv zeta in IH |- *.
    destruct IH as [Hfst Hsnd]. cbn [fst snd]. rewrite Hfst. split; [lia|].
    intros H z Hz. apply andb_true_iff in H as [Hall Hn].
    destruct (Z.eq_dec z (Z.pos n)) as [->|Hne]; [exact Hn|].
    apply Hsnd; [exact Hall | lia].
Qed.

Lemma allBelow_spec (check : Z -> bool) (n : positive) (z : Z) :
  allBelow check n = true -> 0 <= z < Z.pos n -> check z = true.
Proof. intros H. apply (allBelow_iter check n), H. Qed.

Lemma twoDigits_all : allBelow twoDigits 100 = true.
Proof. vm_compute. reflexivity. Qed.

Lemma fourDigits_all : allBelow fourDigits 10000 = true.
Proof. vm_compute. reflexivity. Qed.

Lemma pad2_shape (n : Z) :
  0 <= n < 100 ->
  exists a b, pad 2 n = String a (String b EmptyString)
              /\ isDigit a = true /\ isDigit b = true
              /\ 10 * digitValue a + digitValue b = n.
Proof.
  intros Hn. pose proof (allBelow_spec twoDigits 100 n twoDigits_all Hn) as H.
  unfold twoDigits in H.
  destruct (pad 2 n) as [|a [|b [|]]]; try discriminate.
  apply andb_true_iff in H as [H Hv]. apply andb_true_iff in H as [Ha Hb].
  exists a, b. repeat split; try assumption. apply Z.eqb_eq, Hv.
Qed.

Lemma pad4_shape (n : Z) :
  0 <= n < 10000 ->
  exists a b c d, pad 4 n = String a (String b (String c (String d EmptyString)))
                  /\ isDigit a = true /\ isDigit b = true
                  /\ isDigit c = true /\ isDigit d = true
                  /\ 10 * (10 * (10 * digitValue a + digitValue b) + digitValue c)
                     + digitValue d = n.
Proof.
  intros Hn. pose proof (allBelow_spec fourDigits 10000 n fourDigits_all Hn) as H.
  unfold fourDigits in H.
  destruct (pad 4 n) as [|a [|b [|c [|d [|]]]]]; try discriminate.
  apply andb_true_iff in H as [H Hv]. apply andb_true_iff in H as [H Hd].
  apply andb_true_iff in H as [H Hc]. apply andb_true_iff in H as [Ha Hb].
  exists a, b, c, d. repeat split; try assumption. apply Z.eqb_eq, Hv.
Qed.

Lemma cycleYearEnds_all : allBelow cycleYearEnds 400 = true.
Proof. vm_compute. reflexivity. Qed.

Lemma cycle_count_step (doe : Z) :
  0 <= doe < 146096 ->
  doe - doe / 1460 + doe / 36524 - doe / 146096
  <= (doe + 1) - (doe + 1) / 1460 + (doe + 1) / 36524 - (doe + 1) / 146096.
Proof. intros H. Z.to_euclidean_division_equations. lia. Qed.

Lemma yearOfCycleDay_step (doe : Z) :
  0 <= doe < 146096 -> yearOfCycleDay doe <= yearOfCycleDay (doe + 1).
Proof.
  intros H. unfold yearOfCycleDay. apply Z.div_le_mono; [lia|].
  apply cycle_count_step, H.
Qed.

Lemma yearOfCycleDay_mono (a b : Z) :
  0 <= a <= b -> b <= 146096 -> yearOfCycleDay a <= yearOfCycleDay b.
Proof.
  intros Hab Hb. replace b with (a + Z.of_nat (Z.to_nat (b - a))) in * by lia.
  induction (Z.to_nat (b - a)) as [|n IH]; [rewrite Z.add_0_r; lia|].
  rewrite Nat2Z.inj_succ in *.
  etransitivity; [apply IH; lia|].
  replace (a + Z.succ (Z.of_nat n)) with (a + Z.of_nat n + 1) by lia.
  apply yearOfCycleDay_step. lia.
Qed.

Lemma firstDayOfCycleYear_bounds (y : Z) :
  0 <= y <= 399 ->
  0 <= firstDayOfCycleYear y <= lastDayOfCycleYear y
  /\ lastDayOfCycleYear y <= 146096
  /\ lastDayOfCycleYear y - firstDayOfCycleYear y <= 365.
Proof.
  intros H. unfold lastDayOfCycleYear, firstDayOfCycleYear.
  destruct (Z.eqb_spec y 399) as [->|Hne]; [vm_compute; repeat split; discriminate|].
  Z.to_euclidean_division_equations. lia.
Qed.

(** The year that [civil] computes for a day of the cycle is the year of
    the cycle in which the day lies. *)
Lemma yearOfCycleDay_spec (doe : Z) :
  0 <= doe < 146097 ->
  let y := yearOfCycleDay doe in
  0 <= y <= 399 /\ 0 <= doe - firstDayOfCycleYear y <= 365.
Proof.
  intros Hdoe y.
  assert (Hy : 0 <= y <= 399).
  { split.
    - change 0 with (yearOfCycleDay 0). apply yearOfCycleDay_mono; lia.
    - change 399 with (yearOfCycleDay 146096). apply yearOfCycleDay_mono; lia. }
  split; [exact Hy|].
  pose proof (allBelow_spec cycleYearEnds 400 y cycleYearEnds_all ltac:(lia)) as Hends.
  apply andb_true_iff in Hends as [Hfirst Hlast].
  apply Z.eqb_eq in Hfirst, Hlast.
  destruct (firstDayOfCycleYear_bounds y Hy) as (Hb1 & Hb2 & Hb3).
  assert (Hlow : firstDayOfCycleYear y <= doe).
  { destruct (Z.le_gt_cases (firstDayOfCycleYear y) doe) as [H|H]; [exact H|exfalso].
    assert (Hy1 : 1 <= y).
    { destruct (Z.eq_dec y 0) as [E|E]; [|lia].
      rewrite E in H. change (firstDayOfCycleYear 0) with 0 in H. lia. }
    pose proof (allBelow_spec cycleYearEnds 400 (y - 1) cycleYearEnds_all ltac:(lia))
      as Hprev.
    apply andb_true_iff in Hprev as [_ Hprev]. apply Z.eqb_eq in Hprev.
    assert (Hl : lastDayOfCycleYear (y - 1) = firstDayOfCycleYear y - 1).
    { unfold lastDayOfCycleYear. destruct (Z.eqb_spec (y - 1) 399); [lia|].
      replace (y - 1 + 1) with y by lia. reflexivity. }
    pose proof (yearOfCycleDay_mono doe (lastDayOfCycleYear (y - 1))) as Hm.
    rewrite Hprev in Hm. fold y in Hm. lia. }
  assert (Hhigh : doe <= lastDayOfCycleYear y).
  { destruct (Z.le_gt_cases doe (lastDayOfCycleYear y)) as [H|H]; [exact H|exfalso].
    unfold lastDayOfCycleYear in H.
    destruct (Z.eqb_spec y 399) as [E|E]; [lia|].
    pose proof (allBelow_spec cycleYearEnds 400 (y + 1) cycleYearEnds_all ltac:(lia))
      as Hnext.
    apply andb_true_iff in Hnext as [Hnext _]. apply Z.eqb_eq in Hnext.
    pose proof (yearOfCycleDay_mono (firstDayOfCycleYear (y + 1)) doe) as Hm.
    rewrite Hnext in Hm. fold y in Hm.
    destruct (firstDayOfCycleYear_bounds (y + 1) ltac:(lia)) as (Hc1 & _ & _). lia. }
  lia.
Qed.

Lemma month_and_day_read_back (doy : Z) :
  0 <= doy <= 365 ->
  let mp := (5 * doy + 2) / 153 in
  let d := doy - (153 * mp + 2) / 5 + 1 in
  0 <= mp <= 11 /\ 1 <= d <= 31.
Proof. intros H. cbv zeta. Z.to_euclidean_division_equations. lia. Qed.

(** The day number of the date of a day is the day. *)
Lemma daysFromCivil_civil (days : Z) :
  let '(y, m, d) := civil days in
  daysFromCivil y m d = days /\ 1 <= m <= 12 /\ 1 <= d <= 31.
Proof.
  unfold civil.
  set (z := days + 719468). set (era := z / 146097).
  set (doe := z - era * 146097).
  assert (Hdoe : 0 <= doe < 146097).
  { subst doe era. pose proof (Z.mod_pos_bound z 146097 ltac:(lia)) as Hb.
    rewrite Z.mod_eq in Hb by lia. lia. }
  fold (yearOfCycleDay doe).
  destruct (yearOfCycleDay_spec doe Hdoe) as [Hy Hdoy].
  set (yoe := yearOfCycleDay doe) in *.
  unfold firstDayOfCycleYear in Hdoy.
  set (doy := doe - (365 * yoe + yoe / 4 - yoe / 100)) in *.
  destruct (month_and_day_read_back doy Hdoy) as [Hmp Hd].
  set (mp := (5 * doy + 2) / 153) in *.
  set (d := doy - (153 * mp + 2) / 5 + 1) in *.
  set (m := if mp <? 10 then mp + 3 else mp - 9).
  assert (Hm : 1 <= m <= 12 /\ (if 2 <? m then m - 3 else m + 9) = mp
               /\ (if m <=? 2 then yoe + era * 400 + 1 - 1 else yoe + era * 400 + 0)
                  = yoe + era * 400).
  { subst m. destruct (Z.ltb_spec mp 10).
    - destruct (Z.ltb_spec 2 (mp + 3)); destruct (Z.leb_spec (mp + 3) 2); lia.
    - destruct (Z.ltb_spec 2 (mp - 9)); destruct (Z.leb_spec (mp - 9) 2); lia. }
  destruct Hm as (Hm & Hmp' & Hy').
  split; [|split; assumption].
  unfold daysFromCivil.
  replace (if m <=? 2
           then yoe + era * 400 + (if m <=? 2 then 1 else 0) - 1
           else yoe + era * 400 + (if m <=? 2 then 1 else 0))
    with (yoe + era * 400) by (destruct (m <=? 2); lia).
  rewrite Hmp'.
  rewrite Z.div_add by lia. rewrite (Z.div_small yoe 400) by lia.
  replace (yoe + era * 400 - (0 + era) * 400) with yoe by lia.
  subst d doy doe z. lia.
Qed.
Lemma digit_kept (c : ascii) :
  isDigit c = true ->
  (if (code c =? 58)%nat || (code c =? 84)%nat then "-"%char else c) = c.
Proof.
  unfold isDigit. intros H. apply andb_true_iff in H as [H1 H2].
  apply Nat.leb_le in H1, H2.
  destruct (Nat.eqb_spec (code c) 58) as [E|_]; [lia|].
  destruct (Nat.eqb_spec (code c) 84) as [E|_]; [lia|]. reflexivity.
Qed.

Lemma time_of_day_reads_back (secs : Z) :
  0 <= secs < 86400 ->
  secs / 3600 * 3600 + secs / 60 mod 60 * 60 + secs mod 60 = secs
  /\ 0 <= secs / 3600 < 100 /\ 0 <= secs / 60 mod 60 < 100 /\ 0 <= secs mod 60 < 100.
Proof. intros H. Z.to_euclidean_division_equations. lia. Qed.

(** The stamp of a second reads back as that second. *)
Lemma stampSeconds_isoSeconds (s : Z) (rest : string) :
  (let '(y, _, _) := civil (s / 86400) in 0 <= y <= 9999) ->
  stampSeconds (replaceColonT (isoSeconds s) +:+ rest) = s.
Proof.
  unfold isoSeconds. pose proof (daysFromCivil_civil (s / 86400)) as Hdays.
  destruct (civil (s / 86400)) as [[y m] d]. intros Hy.
  destruct Hdays as (Hdays & Hm & Hd).
  pose proof (Z.mod_pos_bound s 86400 ltac:(lia)) as Hsecs.
  destruct (time_of_day_reads_back (s mod 86400) Hsecs) as (Htime & Hh & Hmi & Hse).
  unfold isoYear.
  replace ((0 <=? y) && (y <=? 9999)) with true
    by (symmetry; apply andb_true_iff; split; apply Z.leb_le; lia).
  destruct (pad4_shape y ltac:(lia)) as (y1 & y2 & y3 & y4 & -> & ? & ? & ? & ? & Ey).
  destruct (pad2_shape m ltac:(lia)) as (m1 & m2 & -> & ? & ? & Em).
  destruct (pad2_shape d ltac:(lia)) as (d1 & d2 & -> & ? & ? & Ed).
  destruct (pad2_shape _ Hh) as (h1 & h2 & -> & ? & ? & Eh).
  destruct (pad2_shape _ Hmi) as (i1 & i2 & -> & ? & ? & Ei).
  destruct (pad2_shape _ Hse) as (s1 & s2 & -> & ? & ? & Es).
  rewrite !append_cons, !append_nil.
  cbn [replaceColonT].
  rewrite !(digit_kept y1), !(digit_kept y2), !(digit_kept y3), !(digit_kept y4),
    !(digit_kept m1), !(digit_kept m2), !(digit_kept d1), !(digit_kept d2),
    !(digit_kept h1), !(digit_kept h2), !(digit_kept i1), !(digit_kept i2),
    !(digit_kept s1), !(digit_kept s2) by assumption.
  rewrite !append_cons.
  unfold stampSeconds. cbn [readNumber dropChars].
  replace (10 * (10 * (10 * (10 * 0 + digitValue y1) + digitValue y2) + digitValue y3)
           + digitValue y4) with y by lia.
  replace (10 * (10 * 0 + digitValue m1) + digitValue m2) with m by lia.
  replace (10 * (10 * 0 + digitValue d1) + digitValue d2) with d by lia.
  rewrite Hdays.
  pose proof (Z.div_mod s 86400 ltac:(lia)) as Hs. lia.
Qed.

Lemma backupSecond_backupPath (t : Date) :
  fourDigitYear t -> backupSecond (backupPath t) = t / 1000.
Proof.
  intros Hy. unfold backupSecond, backupPath. rewrite backupFilename_seconds.
  change (dropChars 15 (pathJoin BACKUPS_DIR
            ("backup_" +:+ replaceColonT (isoSeconds (t / 1000)) +:+ ".json")))
    with (replaceColonT (isoSeconds (t / 1000)) +:+ ".json").
  apply stampSeconds_isoSeconds.
  unfold fourDigitYear, msPerDay in Hy.
  rewrite Z.div_div by lia. exact Hy.
Qed.

(** X19.  The name of a backup reads back as the second of its making,
    so two backups made in years 0000 to 9999 get the same file exactly
    when they are made within the same second: a backup replaces only a
    backup of its own second. *)
Theorem backups_share_a_file_exactly_within_a_second (t1 t2 : Date) :
  fourDigitYear t1 -> fourDigitYear t2 ->
  backupSecond (backupPath t1) = t1 / 1000
  /\ (backupPath t1 = backupPath t2 <-> t1 / 1000 = t2 / 1000).
Proof.
  intros H1 H2. split; [apply backupSecond_backupPath, H1|]. split.
  - intros E. rewrite <- (backupSecond_backupPath t1 H1), <- (backupSecond_backupPath t2 H2).
    rewrite E. reflexivity.
  - apply backupPath_same_second.
Qed.
End BackupSeconds.

(** ** Answers and round trips *)

Section AnswerFacts.
Context (P : Platform).
Import JsString JsDate.

(** X20.  Blanks around an answer never matter: an action does the same
    with every answer trimmed beforehand. *)
Theorem answers_count_only_trimmed (a : Action) (v : Vault) :
  perform P (trimAnswers a) v = perform P a v.
Proof.
  destruct a; cbn [trimAnswers perform]; try reflexivity.
  - unfold addRecord. rewrite !trim_idem. reflexivity.
  - unfold updateRecord. rewrite !trim_idem. reflexivity.
  - unfold deleteRecord. rewrite !trim_idem. reflexivity.
  - unfold searchRecords. rewrite !trim_idem. reflexivity.
  - unfold sortRecords. rewrite !trim_idem. reflexivity.
Qed.

Lemma lowerChar_is_y (c : ascii) :
  lowerChar c = "y"%char <-> c = "y"%char \/ c = "Y"%char.
Proof.
  split.
  - destruct c as [[] [] [] [] [] [] [] []]; vm_compute; intros H;
      try discriminate H; auto.
  - intros [->| ->]; reflexivity.
Qed.

Lemma confirmation_is_y (c : string) :
  toLowerCase c = "y" <-> c = "y" \/ c = "Y".
Proof.
  destruct c as [|x [|y c]]; cbn.
  - split; [discriminate | intros [H|H]; discriminate].
  - split.
    + intros [= H]. apply lowerChar_is_y in H as [->| ->]; auto.
    + intros [[= ->]|[= ->]]; reflexivity.
  - split; [discriminate | intros [H|H]; discriminate].
Qed.

Lemma log_grows_ne (l : list StoreCall) (c : StoreCall) (more : list StoreCall) :
  l ++ c :: more <> l.
Proof.
  intros H. apply (f_equal length) in H. rewrite length_app in H. cbn in H. lia.
Qed.

(** X21.  A delete reaches the store exactly when the identifier is
    well-formed and the answer to the confirmation, blanks aside, is y or
    Y; any other answer (yes, for one) cancels it. *)
Theorem delete_reaches_the_store_only_when_confirmed (i c : string) (t : Date)
        (v : Vault) :
  storeLog (after P (DeleteRecord i c t) v) <> storeLog v
  <-> isValidObjectId P (trim i) = true /\ (trim c = "y" \/ trim c = "Y").
Proof.
  rewrite <- confirmation_is_y. unfold after. cbn.
  unfold deleteRecord, isValidObjectId, Record_findByIdAndDelete, bind.
  destruct (castObjectId P (trim i)) as [oid|]; cbn.
  - destruct (String.eqb_spec (toLowerCase (trim c)) "y") as [E|E]; cbn.
    + split; [auto|]. intros _.
      destruct (List.find (hasId oid) (collection v)); cbn.
      * rewrite <- app_assoc. apply log_grows_ne.
      * apply log_grows_ne.
    + split; [intros H; contradiction H; reflexivity | intros [_ H]; contradiction].
  - split; [intros H; contradiction H; reflexivity | intros [H _]; discriminate].
Qed.

Lemma removeFirst_snoc_fresh (oid : ObjectId) (l : list RecordDoc) (doc : RecordDoc) :
  (forall d, In d l -> _id d <> oid) -> _id doc = oid ->
  removeFirst oid (l ++ [doc]) = l.
Proof.
  intros Hfresh Hdoc. induction l as [|d l IH]; cbn.
  - unfold hasId. rewrite Hdoc, String.eqb_refl. reflexivity.
  - unfold hasId at 1. destruct (String.eqb_spec (_id d) oid) as [E|E].
    + exfalso. apply (Hfresh d); [left; reflexivity | exact E].
    + rewrite IH; [reflexivity|]. intros x Hx. apply Hfresh. right. exact Hx.
Qed.

(** X22.  Adding a record under a fresh identifier and then deleting it
    by that identifier, confirmed, gives back the collection as it was;
    the two backups made on the way stay. *)
Theorem add_then_delete_restores_the_collection (n d c : string) (oid : ObjectId)
        (t1 t2 t3 : Date) (v : Vault) :
  truthy (trim n) = true ->
  (forall r, In r (collection v) -> _id r <> oid) ->
  castObjectId P (trim oid) = Some oid ->
  toLowerCase (trim c) = "y" ->
  let v1 := after P (AddRecord n d oid t1 t2) v in
  let v2 := after P (DeleteRecord oid c t3) v1 in
  collection v2 = collection v
  /\ length (collection v1) = S (length (collection v))
  /\ is_Some (files v2 !! backupPath t2)
  /\ files v2 !! backupPath t3 = Some (JsonArray (snapshot v)).
Proof.
  intros Hn Hfresh Hcast Hy v1 v2.
  set (doc := {| _id := oid; name := trim n; details := trim d;
                 createdAt := t1; updatedAt := t1 |}).
  assert (Hv1 : collection v1 = collection v ++ [doc]
                /\ files v1 = <[backupPath t2 := JsonArray (snapshot v1)]> (files v)).
  { subst v1. unfold after. rewrite (addRecord_success P n d oid t1 t2 v Hn).
    split; reflexivity. }
  destruct Hv1 as [Hcol1 Hfiles1].
  assert (Hfind : List.find (hasId oid) (collection v1) = Some doc).
  { rewrite Hcol1. apply find_snoc_fresh; [exact Hfresh | reflexivity]. }
  assert (Hy' : String.eqb (toLowerCase (trim c)) "y" = true)
    by (rewrite Hy; reflexivity).
  assert (Hcol2 : collection v2 = collection v).
  { subst v2. unfold after.
    rewrite (deleteRecord_success P oid c t3 v1 oid doc Hcast Hy' Hfind).
    cbn [snd collection]. rewrite Hcol1.
    apply removeFirst_snoc_fresh; [exact Hfresh | reflexivity]. }
  assert (Hfiles2 : files v2 = <[backupPath t3 := JsonArray (snapshot v2)]> (files v1)).
  { subst v2. unfold after.
    rewrite (deleteRecord_success P oid c t3 v1 oid doc Hcast Hy' Hfind). reflexivity. }
  split; [exact Hcol2|]. split; [rewrite Hcol1, length_app; cbn; lia|].
  rewrite Hfiles2, Hfiles1. split.
  - destruct (decide (backupPath t3 = backupPath t2)) as [->|Hne].
    + rewrite lookup_insert_eq. eauto.
    + rewrite lookup_insert_ne by exact Hne. rewrite lookup_insert_eq. eauto.
  - rewrite lookup_insert_eq. unfold snapshot. rewrite Hcol2. reflexivity.
Qed.
End AnswerFacts.

Section PlainSearch.
Context (P : Platform).
Import JsString.

(** X23.  For a term that is not blank and has no pattern character, the
    search by name shows exactly the records whose name contains the
    trimmed term, the case of letters aside, in creation order, and
    changes no record and no file. *)
Theorem plain_term_search_is_substring_search (choice t : string) (v : Vault) :
  trim choice = "1" -> truthy (trim t) = true -> isPlain (trim t) = true ->
  exists results,
    perform P (SearchRecords choice t) v
    = (Normal tt, searchMenu :: searchOutput P results,
       logged [FindSorted (Some (trim t)) SortCreatedAt Ascending] v)
    /\ (forall r, In r results
                  <-> In r (collection v)
                      /\ isSubstring (toLowerCase (trim t)) (toLowerCase (name r)))
    /\ inCreationOrder results.
Proof. apply searchRecords_plain_term. Qed.
End PlainSearch.


(** * Closed instances of the further properties *)

Section MoreInstances.
Import JsString JsDate Reference Sample Script.

Lemma vault3_ids_unique : uniqueIds (collection vault3).
Proof.
  unfold uniqueIds. cbn. repeat constructor; cbn; intros H;
    repeat (destruct H as [H|H]; [discriminate H|]); exact H.
Qed.

Lemma vault3_valid : Forall validRecord (collection vault3).
Proof. repeat constructor; cbn; try lia; vm_compute; discriminate. Qed.

Lemma vault3_ordered : inCreationOrder (collection vault3).
Proof. repeat constructor; cbn; lia. Qed.

Lemma vault3_lacks_oid4 : forall r, In r (collection vault3) -> _id r <> oid4.
Proof. intros r [<-|[<-|[<-|[]]]]; discriminate. Qed.

(** X2 at the field answer 3. *)
Lemma sort_rejects_a_bad_selection_witness :
  (chosenField (trim "3") = None \/ chosenOrder (trim "1") = None)
  /\ perform platform (SortRecords "3" "1") vault3
     = (Normal tt, [sortFieldMenu; "Invalid selection."], vault3).
Proof.
  assert (H : chosenField (trim "3") = None \/ chosenOrder (trim "1") = None)
    by (left; reflexivity).
  split; [exact H|].
  exact (sort_rejects_a_bad_selection platform "3" "1" vault3 H).
Defined.


(** X4 at the identifier of Router, typed in capitals. *)
Lemma search_by_id_shows_the_record_witness :
  trim "2" = "2"
  /\ truthy (trim "65A000000000000000000002") = true
  /\ castObjectId platform (trim "65A000000000000000000002") = Some oid2
  /\ uniqueIds (collection vault3)
  /\ printed platform (SearchRecords "2" "65A000000000000000000002") vault3
     = searchMenu :: (nl +:+ "Search Results:") :: displayEntry platform 0 router.
Proof.
  assert (H1 : trim "2" = "2") by reflexivity.
  assert (H2 : truthy (trim "65A000000000000000000002") = true) by reflexivity.
  assert (H3 : castObjectId platform (trim "65A000000000000000000002") = Some oid2)
    by reflexivity.
  split; [exact H1|]. split; [exact H2|]. split; [exact H3|].
  split; [exact vault3_ids_unique|].
  destruct (search_by_id_shows_the_record platform "2" "65A000000000000000000002"
              vault3 oid2 H1 H2 H3 vault3_ids_unique) as (_ & Hfound & _).
  apply Hfound; [cbn; auto | reflexivity].
Defined.

(** X5 at a blank search term. *)
Lemma search_rejects_bad_choice_and_blank_input_witness :
  ((trim "1" <> "1" /\ trim "1" <> "2") \/ trim "  " = EmptyString)
  /\ perform platform (SearchRecords "1" "  ") vault3
     = (Normal tt, [searchMenu; "Search term is required."], vault3).
Proof.
  assert (H : (trim "1" <> "1" /\ trim "1" <> "2") \/ trim "  " = EmptyString)
    by (right; reflexivity).
  split; [exact H|].
  exact (search_rejects_bad_choice_and_blank_input platform "1" "  " vault3 H).
Defined.

(** X6 at the delete of Passport. *)
Lemma delete_removes_exactly_the_record_witness :
  castObjectId platform (trim "65a000000000000000000001") = Some oid1
  /\ toLowerCase (trim " Y") = "y"
  /\ List.find (hasId oid1) (collection vault3) = Some passport
  /\ uniqueIds (collection vault3)
  /\ collection (after platform
                   (DeleteRecord "65a000000000000000000001" " Y" 1700000098000%Z) vault3)
     = List.filter (fun d => negb (hasId oid1 d)) (collection vault3).
Proof.
  assert (H1 : castObjectId platform (trim "65a000000000000000000001") = Some oid1)
    by reflexivity.
  assert (H2 : toLowerCase (trim " Y") = "y") by reflexivity.
  assert (H3 : List.find (hasId oid1) (collection vault3) = Some passport) by reflexivity.
  split; [exact H1|]. split; [exact H2|]. split; [exact H3|].
  split; [exact vault3_ids_unique|].
  destruct (delete_removes_exactly_the_record platform "65a000000000000000000001" " Y"
              1700000098000%Z vault3 oid1 passport H1 H2 H3) as (_ & _ & Hu).
  destruct (Hu vault3_ids_unique) as [Hcol _]. exact Hcol.
Defined.

(** X7 at the delete of Passport. *)
Lemma deleted_id_resolves_no_more_witness :
  uniqueIds (collection vault3)
  /\ castObjectId platform (trim "65a000000000000000000001") = Some oid1
  /\ toLowerCase (trim " Y") = "y"
  /\ List.find (hasId oid1) (collection vault3) = Some passport
  /\ printed platform (UpdateRecord "65a000000000000000000001" "X" "Y" 1700000099000%Z)
       (after platform
          (DeleteRecord "65a000000000000000000001" " Y" 1700000098000%Z) vault3)
     = ["Record not found."].
Proof.
  assert (H1 : castObjectId platform (trim "65a000000000000000000001") = Some oid1)
    by reflexivity.
  assert (H2 : toLowerCase (trim " Y") = "y") by reflexivity.
  assert (H3 : List.find (hasId oid1) (collection vault3) = Some passport) by reflexivity.
  split; [exact vault3_ids_unique|]. split; [exact H1|]. split; [exact H2|].
  split; [exact H3|].
  destruct (deleted_id_resolves_no_more platform "65a000000000000000000001" " Y"
              1700000098000%Z vault3 oid1 passport vault3_ids_unique H1 H2 H3)
    as (_ & Hupdate & _).
  apply Hupdate.
Defined.

(** X8 at an identifier that no record carries. *)
Lemma delete_of_a_missing_record_changes_nothing_witness :
  castObjectId platform (trim "65a000000000000000000004") = Some oid4
  /\ toLowerCase (trim "y") = "y"
  /\ (forall d, In d (collection vault3) -> _id d <> oid4)
  /\ perform platform (DeleteRecord "65a000000000000000000004" "y" 1700000098000%Z) vault3
     = (Normal tt, ["Record not found."], logged [FindByIdAndDelete oid4] vault3).
Proof.
  assert (H1 : castObjectId platform (trim "65a000000000000000000004") = Some oid4)
    by reflexivity.
  assert (H2 : toLowerCase (trim "y") = "y") by reflexivity.
  split; [exact H1|]. split; [exact H2|]. split; [exact vault3_lacks_oid4|].
  exact (delete_of_a_missing_record_changes_nothing platform
           "65a000000000000000000004" "y" 1700000098000%Z vault3 oid4 H1 H2
           vault3_lacks_oid4).
Defined.

(** X9 at the add of Bank PIN. *)
Lemma added_record_is_found_by_its_id_witness :
  truthy (trim " Bank PIN ") = true
  /\ (forall r, In r (collection vault3) -> _id r <> oid4)
  /\ trim "2" = "2" /\ truthy (trim oid4) = true
  /\ castObjectId platform (trim oid4) = Some oid4
  /\ printed platform (SearchRecords "2" oid4)
       (after platform
          (AddRecord " Bank PIN " "1234" oid4 1700000090000%Z 1700000090500%Z) vault3)
     = searchMenu :: (nl +:+ "Search Results:")
         :: displayEntry platform 0
              {| _id := oid4; name := "Bank PIN"; details := "1234";
                 createdAt := 1700000090000%Z; updatedAt := 1700000090000%Z |}.
Proof.
  assert (H1 : truthy (trim " Bank PIN ") = true) by reflexivity.
  assert (H3 : trim "2" = "2") by reflexivity.
  assert (H4 : truthy (trim oid4) = true) by reflexivity.
  assert (H5 : castObjectId platform (trim oid4) = Some oid4) by reflexivity.
  split; [exact H1|]. split; [exact vault3_lacks_oid4|]. split; [exact H3|].
  split; [exact H4|]. split; [exact H5|].
  destruct (added_record_is_found_by_its_id platform " Bank PIN " "1234" oid4
              1700000090000%Z 1700000090500%Z vault3 "2"
              H1 vault3_lacks_oid4 H3 H4 H5) as (_ & _ & Hsearch).
  exact Hsearch.
Defined.

(** X10 at the add of Bank PIN. *)
Lemma ids_stay_unique_witness :
  uniqueIds (collection vault3)
  /\ (forall r, In r (collection vault3) -> _id r <> oid4)
  /\ uniqueIds (collection
                  (after platform
                     (AddRecord " Bank PIN " "1234" oid4 1700000090000%Z
                                1700000090500%Z) vault3)).
Proof.
  split; [exact vault3_ids_unique|]. split; [exact vault3_lacks_oid4|].
  exact (ids_stay_unique platform
           (AddRecord " Bank PIN " "1234" oid4 1700000090000%Z 1700000090500%Z)
           vault3 vault3_ids_unique vault3_lacks_oid4).
Defined.

(** X11 at a rename of Router. *)
Lemma update_changes_only_the_addressed_record_witness :
  castObjectId platform (trim "65a000000000000000000002") = Some oid2
  /\ uniqueIds (collection vault3)
  /\ collection (after platform
                   (UpdateRecord "65a000000000000000000002" "Router 5G" EmptyString
                                 1700000095000%Z) vault3) !! 0%nat
     = Some passport.
Proof.
  assert (H1 : castObjectId platform (trim "65a000000000000000000002") = Some oid2)
    by reflexivity.
  split; [exact H1|]. split; [exact vault3_ids_unique|].
  destruct (update_changes_only_the_addressed_record platform
              "65a000000000000000000002" "Router 5G" EmptyString 1700000095000%Z
              vault3 oid2 H1 vault3_ids_unique) as [_ Hlookup].
  exact (Hlookup 0%nat passport eq_refl).
Defined.


(** X14 at a vault of three records. *)
Lemma statistics_report_count_and_dates_witness :
  collection vault3 <> []
  /\ exists lastModified earliest latest,
       In lastModified (collection vault3) /\ In earliest (collection vault3)
       /\ In latest (collection vault3)
       /\ printed platform ViewStatistics vault3 !! 2%nat
          = Some ("Last Modification: "
                    +:+ toLocaleString platform (updatedAt lastModified))
       /\ printed platform ViewStatistics vault3 !! 4%nat
          = Some ("Earliest Record Date: "
                    +:+ toLocaleString platform (createdAt earliest))
       /\ printed platform ViewStatistics vault3 !! 5%nat
          = Some ("Latest Record Date: "
                    +:+ toLocaleString platform (createdAt latest)).
Proof.
  assert (H : collection vault3 <> []) by discriminate.
  split; [exact H|].
  destruct (statistics_report_count_and_dates platform vault3 H)
    as (m & e & l & Hm & He & Hl & _ & _ & H2 & H4 & H5 & _).
  exists m, e, l. auto 10.
Defined.

(** X16 at a session of five turns. *)
Lemma session_keeps_records_valid_and_ordered_witness :
  Forall validRecord (collection vault3)
  /\ inCreationOrder (collection vault3)
  /\ clockNeverBack platform session vault3
  /\ Forall validRecord (collection (vault (mainLoop platform session vault3)))
  /\ inCreationOrder (collection (vault (mainLoop platform session vault3))).
Proof.
  assert (Hclock : clockNeverBack platform session vault3).
  { apply clockNeverBackb_spec. vm_compute. reflexivity. }
  split; [exact vault3_valid|]. split; [exact vault3_ordered|]. split; [exact Hclock|].
  destruct (session_keeps_records_valid_and_ordered platform session vault3
              vault3_valid vault3_ordered Hclock) as (Hv & Ho & _).
  split; assumption.
Defined.

(** X17 at the backup of an add, through the rest of the session. *)
Lemma no_file_is_ever_removed_witness :
  let v1 := after platform
              (AddRecord " Bank PIN " "1234" oid4 1700000090000%Z 1700000090500%Z)
              vault3 in
  is_Some (files v1 !! "backups/backup_2023-11-14-22-14-50.json")
  /\ is_Some (files (vault (mainLoop platform
                              [renameRouter; searchBadPattern; unknownKey; deletePassport]
                              v1))
              !! "backups/backup_2023-11-14-22-14-50.json").
Proof.
  intros v1.
  assert (H : is_Some (files v1 !! "backups/backup_2023-11-14-22-14-50.json")).
  { vm_compute. eauto. }
  split; [exact H|].
  exact (no_file_is_ever_removed platform _ v1 _ H).
Defined.

(** X19 at two instants of one second and one of the next. *)
Lemma backups_share_a_file_exactly_within_a_second_witness :
  fourDigitYear 1700000000100%Z
  /\ fourDigitYear 1700000000900%Z
  /\ backupSecond (backupPath 1700000000100%Z) = (1700000000100 / 1000)%Z
  /\ (backupPath 1700000000100%Z = backupPath 1700000000900%Z
      <-> (1700000000100 / 1000 = 1700000000900 / 1000)%Z).
Proof.
  assert (H1 : fourDigitYear 1700000000100%Z) by (vm_compute; split; discriminate).
  assert (H2 : fourDigitYear 1700000000900%Z) by (vm_compute; split; discriminate).
  split; [exact H1|]. split; [exact H2|].
  exact (backups_share_a_file_exactly_within_a_second _ _ H1 H2).
Defined.

(** X22 at the add and the delete of Bank PIN. *)
Lemma add_then_delete_restores_the_collection_witness :
  truthy (trim " Bank PIN ") = true
  /\ (forall r, In r (collection vault3) -> _id r <> oid4)
  /\ castObjectId platform (trim oid4) = Some oid4
  /\ toLowerCase (trim "y") = "y"
  /\ collection
       (after platform (DeleteRecord oid4 "y" 1700000098000%Z)
          (after platform
             (AddRecord " Bank PIN " "1234" oid4 1700000090000%Z 1700000090500%Z)
             vault3))
     = collection vault3.
Proof.
  assert (H1 : truthy (trim " Bank PIN ") = true) by reflexivity.
  assert (H3 : castObjectId platform (trim oid4) = Some oid4) by reflexivity.
  assert (H4 : toLowerCase (trim "y") = "y") by reflexivity.
  split; [exact H1|]. split; [exact vault3_lacks_oid4|]. split; [exact H3|].
  split; [exact H4|].
  exact (proj1 (add_then_delete_restores_the_collection platform " Bank PIN " "1234"
                  "y" oid4 1700000090000%Z 1700000090500%Z 1700000098000%Z vault3
                  H1 vault3_lacks_oid4 H3 H4)).
Defined.

(** X23 at the term pass. *)
Lemma plain_term_search_is_substring_search_witness :
  trim "1" = "1"
  /\ truthy (trim " pass ") = true
  /\ isPlain (trim " pass ") = true
  /\ exists results,
       snd (fst (perform platform (SearchRecords "1" " pass ") vault3))
       = searchMenu :: searchOutput platform results
       /\ (forall r, In r results
                     <-> In r (collection vault3)
                         /\ isSubstring (toLowerCase "pass") (toLowerCase (name r))).
Proof.
  assert (H1 : trim "1" = "1") by reflexivity.
  assert (H2 : truthy (trim " pass ") = true) by reflexivity.
  assert (H3 : isPlain (trim " pass ") = true) by reflexivity.
  split; [exact H1|]. split; [exact H2|]. split; [exact H3|].
  destruct (plain_term_search_is_substring_search platform "1" " pass " vault3 H1 H2 H3)
    as (results & Hp & Hin & _).
  exists results. rewrite Hp. split; [reflexivity | exact Hin].
Defined.
End MoreInstances.
